(** * AutoBroker: weekly history, week-to-week change and Sharpe scores

    A shallow embedding of [broker/broker.py] and the properties of its
    core: the weekly aggregation of daily bars, the cache-first loading of
    the 52-week history, the week-to-week change, the three-window Sharpe
    score and the growth of the portfolio table.

    Numbers.  The program computes on IEEE doubles held in pandas objects.
    They are embedded as exact reals extended with the special values the
    program can observe (not-a-number and the two infinities), so a
    division by zero and the propagation of a missing value are the ones of
    the program, while the rounding of finite results is left out. *)

From Stdlib Require Import Reals Lra Lia ZArith List Bool.
From stdpp Require Import base option list strings gmap fin_maps fin_sets.

Local Open Scope Z_scope.

(** ** Numbers: extended reals with a missing value *)

Module Num.

Inductive num : Type :=
  | NaN                 (* numpy.nan: the missing value of pandas *)
  | Inf (neg : bool)    (* +inf ([neg = false]) and -inf *)
  | Fin (x : R).

Definition isna (a : num) : bool :=
  match a with NaN => true | _ => false end.


Definition Rsign (x : R) : bool :=
  if Rlt_dec x 0 then true else false.

Definition neg (a : num) : num :=
  match a with
  | NaN => NaN
  | Inf s => Inf (negb s)
  | Fin x => Fin (- x)
  end.

Definition add (a b : num) : num :=
  match a, b with
  | NaN, _ | _, NaN => NaN
  | Inf s, Inf t => if Bool.eqb s t then Inf s else NaN
  | Inf s, Fin _ => Inf s
  | Fin _, Inf t => Inf t
  | Fin x, Fin y => Fin (x + y)
  end.

Definition sub (a b : num) : num := add a (neg b).

Definition mul (a b : num) : num :=
  match a, b with
  | NaN, _ | _, NaN => NaN
  | Inf s, Inf t => Inf (xorb s t)
  | Inf s, Fin y =>
      if Req_dec_T y 0 then NaN else Inf (xorb s (Rsign y))
  | Fin x, Inf t =>
      if Req_dec_T x 0 then NaN else Inf (xorb (Rsign x) t)
  | Fin x, Fin y => Fin (x * y)
  end.

(** Division of numpy floats: a zero divisor gives an infinity of the sign
    of the dividend, and not-a-number for 0/0; nothing is raised. *)
Definition div (a b : num) : num :=
  match a, b with
  | NaN, _ | _, NaN => NaN
  | Inf _, Inf _ => NaN
  | Inf s, Fin y => Inf (xorb s (Rsign y))
  | Fin _, Inf _ => Fin 0
  | Fin x, Fin y =>
      if Req_dec_T y 0
      then (if Req_dec_T x 0 then NaN else Inf (Rsign x))
      else Fin (x / y)
  end.

Definition sqrt (a : num) : num :=
  match a with
  | NaN => NaN
  | Inf true => NaN
  | Inf false => Inf false
  | Fin x => if Rlt_dec x 0 then NaN else Fin (R_sqrt.sqrt x)
  end.

(** [a > b] of Python on floats: false as soon as one side is missing. *)
Definition gtb (a b : num) : bool :=
  match a, b with
  | NaN, _ | _, NaN => false
  | Inf s, Inf t => negb s && t
  | Inf s, Fin _ => negb s
  | Fin _, Inf t => t
  | Fin x, Fin y => if Rlt_dec y x then true else false
  end.

Definition ltb (a b : num) : bool := gtb b a.

Definition of_nat (n : nat) : num := Fin (INR n).

End Num.

Export Num.

(** ** Exceptions and the state of the module

    A Python exception is its class and its message.  The module keeps its
    working data in globals ([tickers], [historical_data], [portfolio]);
    they are the fields of [state], together with the cache file and the
    list of requests sent to the remote reader so far.  The cache file may
    be missing or hold something that [json.load] or [pandas.read_json]
    refuses: then reading it raises. *)

Record exn : Type := Exn { exn_class : string; exn_msg : string }.

Definition IndexError : exn := Exn "IndexError" "list index out of range".
Definition KeyError (key : string) : exn := Exn "KeyError" key.

Inductive result (A : Type) : Type :=
  | Ok (a : A)
  | Raise (e : exn).
Arguments Ok {A} a.
Arguments Raise {A} e.

Definition date : Type := Z.

(** One day of one symbol as the reader returns it. *)
Record DailyBar : Type := mkDaily {
  d_open : num; d_high : num; d_low : num; d_close : num; d_volume : num }.

(** One row of a weekly frame: the columns
    ['weekof', 'open', 'high', 'low', 'close', 'volume']. *)
Record WeeklyBar : Type := mkWeekly {
  weekof : date; open : num; high : num; low : num; close : num;
  volume : num }.

(** A frame with an integer index: its rows in order, each with its label. *)
Abbreviation DataFrame A := (list (Z * A)).

Inductive call : Type :=
  | CallMany (symbols : list string) (start_date end_date : date)
  | CallOne (symbol : string) (start_date end_date : date).

(** The file [cache/historical_data.json]: either reading it raises, or it
    gives the rows of each cached symbol. *)
Inductive file : Type :=
  | Unreadable (e : exn)
  | Readable (content : gmap string (list WeeklyBar)).

Record state : Type := mkState {
  tickers : gset string;
  historical_data : gmap string (DataFrame WeeklyBar);
  portfolio : gmap string num;          (* column 'Sharpe (unadjusted)' *)
  cache : file;
  fetch_log : list call }.

(** The cached rows that the file gives: none when it cannot be read. *)
Definition cache_file (s : state) : gmap string (list WeeklyBar) :=
  match cache s with
  | Readable content => content
  | Unreadable _ => ∅
  end.

Definition readable (s : state) : Prop :=
  exists content, cache s = Readable content.

Definition M (A : Type) : Type := state -> result A * state.

Definition ret {A} (a : A) : M A := fun s => (Ok a, s).
Definition raise {A} (e : exn) : M A := fun s => (Raise e, s).
Definition bind {A B} (m : M A) (k : A -> M B) : M B :=
  fun s => match m s with
           | (Ok a, s') => k a s'
           | (Raise e, s') => (Raise e, s')
           end.
Definition lift {A} (r : result A) : M A := fun s => (r, s).
Definition gets {A} (f : state -> A) : M A := fun s => (Ok (f s), s).
Definition modify (f : state -> state) : M unit := fun s => (Ok tt, f s).

Notation "x <- m ;; k" := (bind m (fun x => k))
  (at level 100, m at next level, right associativity).
Notation "m ;;; k" := (bind m (fun _ => k))
  (at level 100, right associativity).

(** [for x in l: body x] *)
Fixpoint for_each {A} (l : list A) (body : A -> M unit) : M unit :=
  match l with
  | [] => ret tt
  | x :: l' => body x ;;; for_each l' body
  end.

Definition set_tickers (t : gset string) (s : state) : state :=
  mkState t (historical_data s) (portfolio s) (cache s) (fetch_log s).
Definition set_historical_data (h : gmap string (DataFrame WeeklyBar))
    (s : state) : state :=
  mkState (tickers s) h (portfolio s) (cache s) (fetch_log s).
Definition set_portfolio (p : gmap string num) (s : state) : state :=
  mkState (tickers s) (historical_data s) p (cache s) (fetch_log s).
Definition log_call (c : call) (s : state) : state :=
  mkState (tickers s) (historical_data s) (portfolio s) (cache s)
          (fetch_log s ++ [c]).

(** Lines 91-96: [open], [json.load] and [pandas.read_json] on the cache
    file; whatever they raise leaves the function at once. *)
Definition read_cache : M (gmap string (list WeeklyBar)) :=
  fun s => match cache s with
           | Readable content => (Ok content, s)
           | Unreadable e => (Raise e, s)
           end.

(** Lines 186-188: the file is opened for writing and replaced by the dump
    of the rows; it can be read afterwards.  The file that was read at the
    start of the call is taken to be writable. *)
Definition set_cache_file (c : gmap string (list WeeklyBar)) (s : state)
    : state :=
  mkState (tickers s) (historical_data s) (portfolio s) (Readable c)
          (fetch_log s).

(** Failing computations that touch no global. *)
Definition rbind {A B} (r : result A) (k : A -> result B) : result B :=
  match r with Ok a => k a | Raise e => Raise e end.

Notation "x <~ r ;; k" := (rbind r (fun x => k))
  (at level 100, r at next level, right associativity).

(** ** The pandas and Python operations the module calls *)

Module Pandas.

Definition notna (a : num) : bool := negb (isna a).

(** [Series.count()]: the number of values that are not missing. *)
Definition count (values : list num) : Z :=
  Z.of_nat (length (List.filter notna values)).

(** [df.loc[a : b]] on an increasing integer index: the rows whose label
    lies between [a] and [b], both ends included; a bound that is not a
    label of the frame is allowed.  This is the slice of the frames in
    which [get_historical_data] has written rows (labels 1, 2, ...).  The
    frame without rows of [pd.DataFrame(columns=...)] has an index of
    another type, on which what pandas does with integer bounds depends on
    its version: the properties that name the frames they slice take
    frames with rows. *)
Definition loc_slice {A} (a b : Z) (df : DataFrame A) : DataFrame A :=
  List.filter (fun r => (a <=? fst r) && (fst r <=? b)) df.

Definition total (values : list num) : num := fold_left add values (Fin 0).

(** [Series.mean(skipna=True)] *)
Definition mean (values : list num) : num :=
  let xs := List.filter notna values in
  match length xs with
  | O => NaN
  | n => div (total xs) (of_nat n)
  end.

(** [Series.var(skipna=True)], one delta degree of freedom: missing with
    fewer than two values. *)
Definition var (values : list num) : num :=
  let xs := List.filter notna values in
  let n := length xs in
  if (n <=? 1)%nat then NaN
  else
    let avg := div (total xs) (of_nat n) in
    let sqr := map (fun x => mul (sub avg x) (sub avg x)) xs in
    div (total sqr) (of_nat (n - 1)).

(** [Series.std(skipna=True)] *)
Definition std (values : list num) : num := sqrt (var values).

(** [Series.fillna(method='pad')]: a missing value takes the last value
    seen before it. *)
Fixpoint pad (prev : num) (values : list num) : list num :=
  match values with
  | [] => []
  | x :: rest =>
      let y := if isna x then prev else x in
      y :: pad y rest
  end.

Fixpoint ratio_to_prior (prev : num) (data : list num) : list num :=
  match data with
  | [] => []
  | x :: rest =>
      (if isna x then NaN else sub (div x prev) (Fin 1))
        :: ratio_to_prior x rest
  end.

(** [Series.pct_change()]: pad, then [data / data.shift(1) - 1], and the
    places where the padded data is missing are missing. *)
Definition pct_change (values : list num) : list num :=
  ratio_to_prior NaN (pad NaN values).

(** [df.reindex(new_index)] of a one-column table keyed by symbol: the
    rows of [new_index], with the old value where the label had a row and
    a missing value elsewhere. *)
Definition reindex (new_index : gset string) (df : gmap string num)
    : gmap string num :=
  set_to_map (fun k => (k, default NaN (df !! k))) new_index.

(** [index.union(labels)] *)
Definition index_union (index : gset string) (labels : list string)
    : gset string :=
  index ∪ list_to_set labels.

(** [df.loc[label] = row] on a frame with an integer index: the row of
    that label is replaced, and a label the frame does not have yet is
    added at the end. *)
Definition loc_set {A} (label : Z) (row : A) (df : DataFrame A)
    : DataFrame A :=
  if bool_decide (label ∈ map fst df)
  then map (fun r => if Z.eqb (fst r) label then (label, row) else r) df
  else df ++ [(label, row)].

(** [enumerate(l)] *)
Fixpoint enumerate_from {A} (i : Z) (l : list A) : list (Z * A) :=
  match l with
  | [] => []
  | x :: l' => (i, x) :: enumerate_from (i + 1) l'
  end.
Definition enumerate {A} (l : list A) : list (Z * A) := enumerate_from 0 l.

(** [l[0]] and [l[-1]] *)
Definition first_item {A} (l : list A) : result A :=
  match l with
  | [] => Raise IndexError
  | x :: _ => Ok x
  end.
Definition last_item {A} (l : list A) : result A :=
  match l with
  | [] => Raise IndexError
  | x :: l' => Ok (List.last l' x)
  end.

Definition ValueError_empty (f : string) : exn :=
  Exn "ValueError" (f ++ "() arg is an empty sequence").

(** The builtins [max] and [min]: the first item is kept until a later
    one compares strictly greater (smaller). *)
Definition py_max (l : list num) : result num :=
  match l with
  | [] => Raise (ValueError_empty "max")
  | x :: l' => Ok (fold_left (fun m y => if gtb y m then y else m) l' x)
  end.
Definition py_min (l : list num) : result num :=
  match l with
  | [] => Raise (ValueError_empty "min")
  | x :: l' => Ok (fold_left (fun m y => if ltb y m then y else m) l' x)
  end.

End Pandas.

Export Pandas.

(** ** The remote reader

    [pandas_datareader.data.DataReader] is an external collaborator.  Asked
    for a list of symbols it answers with one frame for all of them (one
    index of days, and a cell per day, column and symbol); asked for one
    symbol it answers with a frame of that symbol's days.  It may raise. *)

Record MultiFrame : Type := mkMulti {
  m_index : list date;
  m_cell : date -> string -> DailyBar }.

Record SingleFrame : Type := mkSingle {
  s_index : list date;
  s_cell : date -> DailyBar }.

Record Reader : Type := mkReader {
  read_many : list string -> date -> date -> result MultiFrame;
  read_one : string -> date -> date -> result SingleFrame }.

(** ** broker.py *)

Section Broker.

Variable reader : Reader.
Variable now : date.   (* today, as a day number; day 0 is a Monday *)

Definition DataReader_many (symbols : list string) (start_date end_date : date)
    : M MultiFrame :=
  modify (log_call (CallMany symbols start_date end_date)) ;;;
  lift (read_many reader symbols start_date end_date).

Definition DataReader_one (symbol : string) (start_date end_date : date)
    : M SingleFrame :=
  modify (log_call (CallOne symbol start_date end_date)) ;;;
  lift (read_one reader symbol start_date end_date).

(** The step that both [get_tickers] and [sharpe_ratios] run on the
    portfolio: "if tickers are not in portfolio, add them". *)
Definition add_missing_tickers (symbols : gset string) : M unit :=
  p <- gets portfolio ;;
  let missing_tickers := elements (symbols ∖ dom p) in
  modify (set_portfolio (reindex (index_union (dom p) missing_tickers) p)).

(** [ticker_series] is the first column of the sheet without its missing
    cells, as [pandas.read_excel] and [dropna] give it. *)
Definition get_tickers (ticker_series : list string) : M (gset string) :=
  modify (set_tickers (list_to_set ticker_series)) ;;;
  t <- gets tickers ;;
  add_missing_tickers t ;;;
  gets tickers.

Definition cur_weekday : Z := now mod 7.

(** Dates of Monday to Friday of each week going back 52 weeks. *)
Definition week_dates : list (list date) :=
  map (fun i : nat =>
         let monday := now - (7 * (52 - Z.of_nat i) + cur_weekday) in
         map (fun j : nat => monday + Z.of_nat j) (seq 0 5))
      (seq 0 52).

(** [week[0]] and [week[-1]]; a week always has its five days. *)
Definition week_first (week : list date) : date := List.hd 0 week.
Definition week_last (week : list date) : date := List.last week 0.

(** [historical_data[ticker].loc[label] = row] *)
Definition set_row (ticker : string) (label : Z) (row : WeeklyBar) : M unit :=
  h <- gets historical_data ;;
  match h !! ticker with
  | None => raise (KeyError ticker)
  | Some df => modify (set_historical_data (<[ticker := loc_set label row df]> h))
  end.

(** The weekly row of [ticker] out of the batched answer (lines 126-144). *)
Definition row_of_batch (week : list date)
    (week_series : list (string -> DailyBar)) (ticker : string)
    : result WeeklyBar :=
  first <~ first_item week_series ;;
  hi <~ py_max (map (fun day => d_high (day ticker)) week_series) ;;
  lo <~ py_min (map (fun day => d_low (day ticker)) week_series) ;;
  final <~ last_item week_series ;;
  Ok (mkWeekly (week_first week) (d_open (first ticker)) hi lo
               (d_close (final ticker)) (d_volume (final ticker))).

(** The weekly row out of the answer for one symbol (lines 163-181). *)
Definition row_of_single (week : list date) (week_series : list DailyBar)
    : result WeeklyBar :=
  first <~ first_item week_series ;;
  hi <~ py_max (map d_high week_series) ;;
  lo <~ py_min (map d_low week_series) ;;
  final <~ last_item week_series ;;
  Ok (mkWeekly (week_first week) (d_open first) hi lo
               (d_close final) (d_volume final)).

(** The rows of the days of the week for which the answer has data. *)
Definition week_series_of_batch (data_pull : MultiFrame) (week : list date)
    : list (string -> DailyBar) :=
  map (m_cell data_pull)
      (List.filter (fun day => bool_decide (day ∈ m_index data_pull)) week).

Definition week_series_of_single (data_pull : SingleFrame)
    (week : list date) : list DailyBar :=
  map (s_cell data_pull)
      (List.filter (fun day => bool_decide (day ∈ s_index data_pull)) week).

(** Lines 110-144: the symbols that the cache does not have. *)
Definition pull_missing (missing_tickers : list string)
    (start_date end_date : date) : M unit :=
  match missing_tickers with
  | [] => ret tt
  | _ =>
      data_pull <- DataReader_many missing_tickers start_date end_date ;;
      for_each (enumerate week_dates) (fun iw =>
        let week_series := week_series_of_batch data_pull (snd iw) in
        for_each missing_tickers (fun ticker =>
          row <- lift (row_of_batch (snd iw) week_series ticker) ;;
          set_row ticker (fst iw + 1) row))
  end.

(** Lines 150-184: one week of a symbol that the cache has. *)
Definition week_from_cached (ticker : string) (df : list WeeklyBar)
    (iw : Z * list date) : M unit :=
  let week := snd iw in
  let week_from_cache :=
    List.filter (fun r => bool_decide (weekof r ∈ week)) df in
  match week_from_cache with
  | [] =>
      data_pull <- DataReader_one ticker (week_first week) (week_last week) ;;
      row <- lift (row_of_single week (week_series_of_single data_pull week)) ;;
      set_row ticker (fst iw + 1) row
  | cached :: _ => set_row ticker (fst iw + 1) cached
  end.

Definition from_cache (cached_data : gmap string (list WeeklyBar))
    (ticker : string) : M unit :=
  match cached_data !! ticker with
  | None => raise (KeyError ticker)
  | Some df => for_each (enumerate week_dates) (week_from_cached ticker df)
  end.

Definition empty_frames (h : gmap string (DataFrame WeeklyBar))
    : list string :=
  elements (dom (filter (fun kv => snd kv = []) h)).

Definition get_historical_data (symbols : option (gset string))
    : M (gmap string (DataFrame WeeklyBar)) :=
  symbols <- match symbols with
             | None => gets tickers
             | Some s => ret s
             end ;;
  let start_date := now - (7 * 52 + cur_weekday) in
  let end_date := now - (3 + cur_weekday) in
  cached_data <- read_cache ;;
  modify (set_historical_data (gset_to_gmap [] symbols)) ;;;
  let missing_tickers := symbols ∖ dom cached_data in
  pull_missing (elements missing_tickers) start_date end_date ;;;
  h <- gets historical_data ;;
  for_each (empty_frames h) (from_cache cached_data) ;;;
  h <- gets historical_data ;;
  modify (set_cache_file (fmap (map snd) h)) ;;;
  gets historical_data.

(** A row of the frames of [_weekly_change]: columns ['close', 'change']. *)
Record ChangeRow : Type := mkChange { cr_close : num; cr_change : num }.

Definition change_frame (df : DataFrame WeeklyBar) : DataFrame ChangeRow :=
  let close_column := map (fun r => close (snd r)) df in
  let change := pct_change close_column in
  zip (map fst df) (zip_with mkChange close_column change).

Definition _weekly_change (weekly_data : gmap string (DataFrame WeeklyBar))
    : gmap string (DataFrame ChangeRow) :=
  foldl (fun weekly_change ticker =>
           <[ticker := change_frame (weekly_data !!! ticker)]> weekly_change)
        ∅ (elements (dom weekly_data)).

(** The change data of the weeks in question (lines 264-265). *)
Definition weeks_in_question (weekly_change : DataFrame ChangeRow)
    (weeks : Z) : list num :=
  let total_weeks := count (map (fun r => cr_close (snd r)) weekly_change) in
  map (fun r => cr_change (snd r))
      (loc_slice (total_weeks - weeks) total_weeks weekly_change).

Definition _sharpe_single (weekly_change : DataFrame ChangeRow) (weeks : Z)
    : num :=
  let change := weeks_in_question weekly_change weeks in
  let average := mean change in
  let deviation := std change in
  div average deviation.

Definition average_sharpe (data : DataFrame ChangeRow) : num :=
  let sharpe_52 := _sharpe_single data 52 in
  let sharpe_26 := _sharpe_single data 26 in
  let sharpe_13 := _sharpe_single data 13 in
  div (add (add sharpe_52 sharpe_26) sharpe_13) (Fin 3).

(** [portfolio.loc[ticker]['Sharpe (unadjusted)'] = average]: the table has
    this one column, the row that [.loc] returns is a view on it, and the
    assignment writes the cell of the table; a label without a row raises. *)
Definition set_sharpe (ticker : string) (average : num) : M unit :=
  p <- gets portfolio ;;
  match p !! ticker with
  | None => raise (KeyError ticker)
  | Some _ => modify (set_portfolio (<[ticker := average]> p))
  end.

Fixpoint sharpe_loop (change : gmap string (DataFrame ChangeRow))
    (todo : list string) (sharpes : gmap string num)
    : M (gmap string num) :=
  match todo with
  | [] => ret sharpes
  | ticker :: rest =>
      let average := average_sharpe (change !!! ticker) in
      let sharpes := <[ticker := average]> sharpes in
      set_sharpe ticker average ;;;
      sharpe_loop change rest sharpes
  end.

Definition sharpe_ratios
    (weekly_data : option (gmap string (DataFrame WeeklyBar)))
    : M (gmap string num) :=
  weekly_data <- match weekly_data with
                 | None => gets historical_data
                 | Some w => ret w
                 end ;;
  let change := _weekly_change weekly_data in
  let symbols := dom change in
  add_missing_tickers symbols ;;;
  sharpe_loop change (elements symbols) ∅.

End Broker.

(** ** A reader in front of a market

    The answers of the reader as they follow from the bars that the remote
    side holds. *)

(** The days from [a] to [b], both included. *)
Definition days_between (a b : date) : list date := seqZ a (b - a + 1).

Definition missing_bar : DailyBar := mkDaily NaN NaN NaN NaN NaN.

Definition has_bar (market : string -> date -> option DailyBar)
    (symbol : string) (day : date) : bool :=
  match market symbol day with
  | Some _ => true
  | None => false
  end.

(** The reader in front of a market that holds zero or one bar per symbol
    and day.  The answer for one symbol has a row for each day of the range
    on which the symbol has a bar.  The answer for a list of symbols is one
    frame for all of them: it has a row for each day on which at least one
    of them has a bar, and in that row the cells of a symbol without a bar
    on that day are missing values. *)
Definition market_reader (market : string -> date -> option DailyBar)
    : Reader :=
  mkReader
    (fun symbols a b =>
       Ok (mkMulti
             (List.filter (fun day => existsb (fun t => has_bar market t day)
                                              symbols)
                          (days_between a b))
             (fun day t => default missing_bar (market t day))))
    (fun symbol a b =>
       Ok (mkSingle
             (List.filter (has_bar market symbol) (days_between a b))
             (fun day => default missing_bar (market symbol day)))).

(** * Vocabulary of the properties

    The predicates in which the properties are stated, the notions that
    describe runs, and the inputs of the examples. *)

(** ** Frames *)

(** [df.loc[label]] as a lookup: the first row with that label. *)
Definition loc_get {A} (label : Z) (df : DataFrame A) : option A :=
  snd <$> List.find (fun r => Z.eqb (fst r) label) df.


(** A weekly frame in which rows have been written, as
    [get_historical_data] writes them: at least one row, and the labels 1,
    2, ... in order.  (The frame without rows that
    [pd.DataFrame(columns=...)] makes has an index that is not of integers
    yet.) *)
Definition numbered (df : DataFrame WeeklyBar) : Prop :=
  df <> [] /\ map fst df = seqZ 1 (Z.of_nat (length df)).

(** ** The portfolio *)

(** The table after "if tickers are not in portfolio, add them". *)
Definition with_missing (symbols : gset string) (p : gmap string num)
    : gmap string num :=
  reindex (dom p ∪ symbols) p.

(** What "the key set only grows" says of the table [p'] that follows [p]
    when [symbols] are added. *)
Definition grown_by (symbols : gset string) (p p' : gmap string num)
    : Prop :=
  dom p' = dom p ∪ symbols /\
  (forall k v, p !! k = Some v -> p' !! k = Some v) /\
  (forall k, k ∈ symbols -> p !! k = None -> p' !! k = Some NaN).

(** The score of a symbol, from its weekly frame. *)
Definition score_of (df : DataFrame WeeklyBar) : num :=
  average_sharpe (change_frame df).

(** The weekly data that [sharpe_ratios] works on. *)
Definition weekly_argument
    (weekly_data : option (gmap string (DataFrame WeeklyBar))) (s : state)
    : gmap string (DataFrame WeeklyBar) :=
  match weekly_data with
  | None => historical_data s
  | Some w => w
  end.

(** ** Samples *)

(** The sample of a window as the specification words it, to compare with
    [weeks_in_question]: the observations [N - w + 1 .. N], where [N] is the
    number of observations, clipped to the observations there are. *)
Definition spec_weeks_in_question (weekly_change : DataFrame ChangeRow)
    (weeks : Z) : list num :=
  let total_weeks := count (map (fun r => cr_close (snd r)) weekly_change) in
  map (fun r => cr_change (snd r))
      (loc_slice (total_weeks - weeks + 1) total_weeks weekly_change).


Section RealSamples.

Local Open Scope R_scope.

(** Sum, mean and sample variance of real numbers. *)
Definition Rsum (xs : list R) : R := fold_left Rplus xs 0.

Definition Rmean (xs : list R) : R := Rsum xs / INR (length xs).

Definition Rvar (xs : list R) : R :=
  Rsum (map (fun x => (Rmean xs + - x) * (Rmean xs + - x)) xs)
  / INR (length xs - 1).

(** The week-to-week changes of real close prices. *)
Fixpoint Rchange (prev : R) (closes : list R) : list R :=
  match closes with
  | [] => []
  | x :: rest => (x / prev - 1) :: Rchange x rest
  end.

(** The weekly frame of a symbol whose bars are flat at the given close
    prices, with the labels 1, 2, ... that [get_historical_data] gives. *)
Definition weekly_of_closes (closes : list R) : DataFrame WeeklyBar :=
  zip (seqZ 1 (Z.of_nat (length closes)))
      (map (fun c => mkWeekly 0%Z (Fin c) (Fin c) (Fin c) (Fin c) (Fin 0))
           closes).

End RealSamples.

(** ** Weekly bars *)

(** The days of the week for which the answer of the reader has a row. *)
Definition present_days (index : list date) (week : list date) : list date :=
  List.filter (fun day => bool_decide (day ∈ index)) week.

(** [m] is one of the values and none of them is greater (smaller). *)
Definition greatest (m : num) (values : list num) : Prop :=
  m ∈ values /\ forall y, y ∈ values -> gtb y m = false.

Definition least (m : num) (values : list num) : Prop :=
  m ∈ values /\ forall y, y ∈ values -> ltb y m = false.

(** What the weekly bar of a window is, given the bars of its present days
    in calendar order, the first of them and the last of them. *)
Definition aggregates (bar : WeeklyBar) (week : list date)
    (days : list DailyBar) (first final : DailyBar) : Prop :=
  weekof bar = week_first week /\
  open bar = d_open first /\
  close bar = d_close final /\
  volume bar = d_volume final /\
  greatest (high bar) (map d_high days) /\
  least (low bar) (map d_low days).

(** ** Runs *)

(** [m], run from [s], ends in [Q] when it returns and in [E] when it
    raises. *)
Definition run_spec {A} (m : M A) (s : state) (Q : A -> state -> Prop)
    (E : exn -> state -> Prop) : Prop :=
  match m s with
  | (Ok a, s') => Q a s'
  | (Raise e, s') => E e s'
  end.

(** The state after the history of some symbols was written and some
    requests were sent. *)
Definition upd (h : gmap string (DataFrame WeeklyBar)) (calls : list call)
    (s : state) : state :=
  mkState (tickers s) h (portfolio s) (cache s) (fetch_log s ++ calls).

(** The globals as the module sets them when it is loaded, with an empty
    cache file and no request sent. *)
Definition initial_state : state := mkState ∅ ∅ ∅ (Readable ∅) [].

(** ** Loading the history *)

Section LoaderVocabulary.

Variable reader : Reader.
Variable now : date.

(** The symbols that a call of [get_historical_data] is about. *)
Definition requested (symbols : option (gset string)) (s : state)
    : gset string :=
  match symbols with
  | None => tickers s
  | Some x => x
  end.

Definition reader_raises (e : exn) : Prop :=
  (exists symbols a b, read_many reader symbols a b = Raise e) \/
  (exists symbol a b, read_one reader symbol a b = Raise e).

(** The errors that loading the history can end in. *)
Definition load_error (e : exn) : Prop :=
  e = IndexError \/ reader_raises e.

(** The cached bar of a week: the first cached row whose recorded date is
    one of the five days of the week. *)
Definition cached_row (df : list WeeklyBar) (week : list date)
    : option WeeklyBar :=
  head (List.filter (fun r => bool_decide (weekof r ∈ week)) df).

(** A cached series without a gap: every one of the 52 windows has its
    cached bar. *)
Definition gapless (df : list WeeklyBar) : Prop :=
  Forall (fun week => is_Some (cached_row df week)) (week_dates now).

(** The cached bars, week by week, under the labels of the weeks. *)
Definition verbatim (df : list WeeklyBar) (weeks : list (Z * list date))
    : DataFrame WeeklyBar :=
  omap (fun iw => (fun r => (fst iw + 1, r)) <$> cached_row df (snd iw)) weeks.

(** A request names a symbol. *)
Definition mentions (t : string) (c : call) : Prop :=
  match c with
  | CallMany symbols _ _ => t ∈ symbols
  | CallOne symbol _ _ => symbol = t
  end.

Definition for_symbol (t : string) (c : call) : Prop :=
  exists a b, c = CallOne t a b.

(** The requests that the batched pull sends: none, or the one for all
    missing symbols. *)
Definition batch_calls (missing_tickers : list string) (a b : date)
    (calls : list call) : Prop :=
  Forall (fun c => c = CallMany missing_tickers a b /\ missing_tickers <> [])
         calls.

(** The requests of the cached symbols: each is for one week of a symbol
    whose cached series has a gap. *)
Definition gap_calls (cached : gmap string (list WeeklyBar))
    (todo : list string) (calls : list call) : Prop :=
  Forall (fun c => exists t df a b,
            c = CallOne t a b /\ t ∈ todo /\
            cached !! t = Some df /\ ~ gapless df)
         calls.

(** A symbol that the cache cannot serve alone: it is absent from the
    cache, or its cached series has a gap. *)
Definition needs_fetch (cached : gmap string (list WeeklyBar)) (t : string)
    : Prop :=
  match cached !! t with
  | None => True
  | Some df => ~ gapless df
  end.

(** Every request names a symbol, and names only requested symbols that
    the cache cannot serve alone. *)
Definition calls_ok (syms : gset string)
    (cached : gmap string (list WeeklyBar)) (calls : list call) : Prop :=
  Forall (fun c => (exists t, mentions t c) /\
                   forall t, mentions t c ->
                             t ∈ syms /\ needs_fetch cached t)
         calls.

End LoaderVocabulary.

(** The close of the row with label 52 of a symbol in the returned frames. *)
Definition last_close (run : result (gmap string (DataFrame WeeklyBar)) * state)
    (symbol : string) : option num :=
  match fst run with
  | Ok h => close <$> (h !! symbol ≫= loc_get 52)
  | Raise _ => None
  end.

(** ** Inputs of the examples *)



Section ExampleCloses.

Local Open Scope R_scope.

(** Fifty-two weekly closes: 1 for 25 weeks, then 2, 4 and 2, then 1 again
    for 24 weeks; and their week-to-week changes from the second week on. *)
Definition bump_closes : list R :=
  repeat 1 25 ++ [2; 4; 2] ++ repeat 1 24.

Definition bump_changes : list R :=
  Rchange 1 (repeat 1 24 ++ [2; 4; 2] ++ repeat 1 24).

End ExampleCloses.

(** A week (Monday is day 0) in which the reader has bars for Monday,
    Wednesday and Friday only, and readers that have no bar at all. *)
Definition example_week : list date := [0; 1; 2; 3; 4].

Definition example_bar (day : date) : DailyBar :=
  mkDaily (Fin (10 + IZR day)) (Fin (12 + IZR day)) (Fin (9 + IZR day))
          (Fin (11 + IZR day)) (Fin (1000 + IZR day)).

Definition single_mon_wed_fri : SingleFrame := mkSingle [0; 2; 4] example_bar.

Definition single_no_day : SingleFrame := mkSingle [] example_bar.

Definition batch_no_day : MultiFrame :=
  mkMulti [] (fun day _ => example_bar day).

Definition empty_reader : Reader :=
  mkReader (fun _ _ _ => Ok batch_no_day) (fun _ _ _ => Ok single_no_day).

(** A day to stand for today: a Sunday, with the last complete week from
    day 987 (Monday) to day 991 (Friday). *)
Definition example_today : date := 1000.

(** A cache that has a bar for every window of [example_today]. *)
Definition cached_weeks : list WeeklyBar :=
  map (fun week => mkWeekly (week_first week) (Fin 1) (Fin 2) (Fin 1)
                            (Fin 2) (Fin 100))
      (week_dates example_today).

Definition cached_state : state :=
  mkState ∅ ∅ ∅ (Readable {[ "ABC" := cached_weeks ]}) [].

(** Two symbols that trade Monday to Friday at a price equal to the day
    number, except that BBB has no bar on the last Friday (day 991) before
    [example_today]. *)
Definition example_market (symbol : string) (day : date)
    : option DailyBar :=
  if (5 <=? day mod 7) || (String.eqb symbol "BBB" && (day =? 991))
  then None
  else Some (mkDaily (Fin (IZR day)) (Fin (IZR day)) (Fin (IZR day))
                     (Fin (IZR day)) (Fin 100)).

(** A cache that has BBB, with one bar that is older than the 52 windows. *)
Definition stale_state : state :=
  mkState ∅ ∅ ∅
    (Readable
       {[ "BBB" := [mkWeekly 0 (Fin 1) (Fin 1) (Fin 1) (Fin 1) (Fin 1)] ]})
    [].

(** ** Windows and requests *)

Section WindowVocabulary.

Variable now : date.

(** The range of the batched request (lines 80-81). *)
Definition start_date : date := now - (7 * 52 + cur_weekday now).
Definition end_date : date := now - (3 + cur_weekday now).

(** The [k]-th window, counted from 0: five days from its Monday on. *)
Definition monday (k : nat) : date := start_date + 7 * Z.of_nat k.

Definition window (k : nat) : list date :=
  [monday k; monday k + 1; monday k + 2; monday k + 3; monday k + 4].

(** A row of a weekly frame is dated inside the window of its label. *)
Definition row_in_week (lr : Z * WeeklyBar) : Prop :=
  exists k : nat,
    fst lr = Z.of_nat k + 1 /\ (k < 52)%nat /\ weekof (snd lr) ∈ window k.

Definition frames_in_weeks (h : gmap string (DataFrame WeeklyBar)) : Prop :=
  forall t df, h !! t = Some df -> Forall row_in_week df.

(** The request that one week of a cached symbol costs: none when the
    week has its cached bar. *)
Definition week_requests (t : string) (df : list WeeklyBar)
    (week : list date) : list call :=
  match cached_row df week with
  | Some _ => []
  | None => [CallOne t (week_first week) (week_last week)]
  end.

(** The requests that a cached symbol costs: one per window without a
    cached bar, oldest window first. *)
Definition gap_requests (t : string) (df : list WeeklyBar) : list call :=
  flat_map (week_requests t df) (week_dates now).

(** The batched request: none when no symbol is missing. *)
Definition batch_request (missing_tickers : list string) : list call :=
  match missing_tickers with
  | [] => []
  | _ => [CallMany missing_tickers start_date end_date]
  end.

(** All the requests of a call that returns: the batched one, then those
    of the requested symbols that the cache has, symbol by symbol. *)
Definition load_requests (syms : gset string)
    (cached : gmap string (list WeeklyBar)) : list call :=
  batch_request (elements (syms ∖ dom cached)) ++
  flat_map (fun t => gap_requests t (cached !!! t))
           (elements (syms ∩ dom cached)).

End WindowVocabulary.

(** ** A change of price unit *)




(** ** The score as a formula *)

Section FormulaVocabulary.

Local Open Scope R_scope.

(** The last [w + 1] of the changes, or all of them when there are
    fewer. *)
Definition tail_sample (w : nat) (changes : list R) : list R :=
  drop (length changes - (w + 1)) changes.

(** A sample with two different values. *)
Definition varied (xs : list R) : Prop :=
  exists x y, x ∈ xs /\ y ∈ xs /\ x <> y.

(** The mean of a sample over its sample standard deviation. *)
Definition Rsharpe (xs : list R) : R := Rmean xs / R_sqrt.sqrt (Rvar xs).

End FormulaVocabulary.

(** ** One symbol pulled in a batch and pulled week by week *)

(** The reader answers the batched request for the symbol alone, and for
    every window its answer to the request of that window has the same
    days of the window, with the same bars, as the batched answer. *)
Definition answers_agree (reader : Reader) (now : date) (t : string)
    : Prop :=
  exists batch,
    read_many reader [t] (start_date now) (end_date now) = Ok batch /\
    forall k, (k < 52)%nat ->
      exists single,
        read_one reader t (week_first (window now k))
                 (week_last (window now k)) = Ok single /\
        present_days (m_index batch) (window now k)
        = present_days (s_index single) (window now k) /\
        forall day, day ∈ present_days (s_index single) (window now k) ->
                    m_cell batch day t = s_cell single day.

(** Two runs end alike: both return, in states that [R] relates, or both
    raise the same exception. *)
Definition same_outcome {A B} (R : state -> state -> Prop)
    (run1 : result A * state) (run2 : result B * state) : Prop :=
  match run1, run2 with
  | (Ok _, s1), (Ok _, s2) => R s1 s2
  | (Raise e1, _), (Raise e2, _) => e1 = e2
  | _, _ => False
  end.

(** The frames that a run returns, or what it raises. *)
Definition outcome {A} (run : result A * state) : result A := fst run.

(** * Properties *)

(** ** Arithmetic on the extended reals *)

Section NumFacts.

Lemma div_Fin (x y : R) : y <> 0%R -> div (Fin x) (Fin y) = Fin (x / y).
Proof.
  intros Hy. unfold div. destruct (Req_dec_T y 0); [contradiction|reflexivity].
Qed.



Lemma div_NaN_r (a : num) : div a NaN = NaN.
Proof. destruct a; reflexivity. Qed.





End NumFacts.

(** ** Frames with the labels 1, 2, ... *)

Section Frames.
Context {A : Type}.

Lemma map_fmap {B C : Type} (f : B -> C) (l : list B) : map f l = f <$> l.
Proof. reflexivity. Qed.



End Frames.

(** ** [_weekly_change] *)

Section WeeklyChange.

Lemma pad_notna prev values :
  Forall (fun x => isna x = false) values -> pad prev values = values.
Proof.
  intros H. revert prev. induction H as [|x l Hx _ IH]; intros prev.
  - reflexivity.
  - simpl. rewrite Hx. f_equal. apply IH.
Qed.

Lemma pad_length prev values : length (pad prev values) = length values.
Proof.
  revert prev. induction values as [|x l IH]; intros prev; simpl;
    [reflexivity|]. f_equal. apply IH.
Qed.

Lemma ratio_to_prior_length prev data :
  length (ratio_to_prior prev data) = length data.
Proof.
  revert prev. induction data as [|x l IH]; intros prev; simpl;
    [reflexivity|]. f_equal. apply IH.
Qed.

Lemma pct_change_length values :
  length (pct_change values) = length values.
Proof. unfold pct_change. rewrite ratio_to_prior_length. apply pad_length. Qed.


(** The dictionary that the loop of [_weekly_change] builds has the change
    frame of every symbol of its argument, and nothing else. *)
Lemma foldl_insert_lookup {W : Type} (f : string -> W) (l : list string)
    (acc : gmap string W) (t : string) :
  foldl (fun m k => <[k := f k]> m) acc l !! t
  = if decide (t ∈ l) then Some (f t) else acc !! t.
Proof.
  revert acc. induction l as [|k l IH]; intros acc.
  - destruct (decide (t ∈ [])) as [H|_]; [|reflexivity].
    by apply not_elem_of_nil in H.
  - cbn [foldl]. rewrite IH.
    destruct (decide (t ∈ l)) as [Hin|Hnin],
             (decide (t ∈ k :: l)) as [Hin'|Hnin']; try reflexivity.
    + exfalso. apply Hnin'. by apply list_elem_of_further.
    + apply elem_of_cons in Hin' as [->|?]; [|contradiction].
      by rewrite lookup_insert_eq.
    + rewrite lookup_insert_ne; [reflexivity|].
      intros ->. apply Hnin'. apply list_elem_of_here.
Qed.

Lemma weekly_change_lookup (weekly_data : gmap string (DataFrame WeeklyBar))
    (ticker : string) :
  _weekly_change weekly_data !! ticker
  = change_frame <$> weekly_data !! ticker.
Proof.
  unfold _weekly_change.
  rewrite (foldl_insert_lookup
             (fun k => change_frame (weekly_data !!! k))).
  destruct (decide (ticker ∈ elements (dom weekly_data))) as [Hin|Hnin].
  - apply elem_of_elements, elem_of_dom in Hin as [df Hdf].
    by rewrite lookup_total_alt, Hdf.
  - rewrite elem_of_elements, elem_of_dom, <- eq_None_not_Some in Hnin.
    by rewrite Hnin, lookup_empty.
Qed.

Lemma weekly_change_dom (weekly_data : gmap string (DataFrame WeeklyBar)) :
  dom (_weekly_change weekly_data) = dom weekly_data.
Proof.
  apply set_eq. intros t. rewrite !elem_of_dom, weekly_change_lookup.
  apply fmap_is_Some.
Qed.

Lemma change_frame_labels (df : DataFrame WeeklyBar) :
  map fst (change_frame df) = map fst df.
Proof.
  unfold change_frame. apply fst_zip.
  rewrite length_zip_with, pct_change_length, !length_map. lia.
Qed.


End WeeklyChange.



(** ** The portfolio table *)

Section Portfolio.

Lemma reindex_lookup (new_index : gset string) (df : gmap string num)
    (k : string) :
  reindex new_index df !! k
  = if decide (k ∈ new_index) then Some (default NaN (df !! k)) else None.
Proof.
  unfold reindex.
  assert (Hinj : forall y y' : string, y ∈ new_index -> y' ∈ new_index ->
            (y, default NaN (df !! y)).1 = (y', default NaN (df !! y')).1 ->
            y = y') by (intros y y' _ _ H; exact H).
  destruct (decide (k ∈ new_index)) as [Hin|Hnin].
  - apply (lookup_set_to_map (M := gmap string)); [exact Hinj|].
    exists k. by split.
  - apply eq_None_not_Some. intros [x Hx].
    apply (lookup_set_to_map (M := gmap string)) in Hx as (y & Hy & Heq);
      [|exact Hinj].
    injection Heq as -> _. contradiction.
Qed.

Lemma index_union_missing (p : gmap string num) (symbols : gset string) :
  index_union (dom p) (elements (symbols ∖ dom p)) = dom p ∪ symbols.
Proof.
  unfold index_union. apply set_eq. intros k.
  rewrite !elem_of_union, elem_of_list_to_set, elem_of_elements,
    elem_of_difference.
  destruct (decide (k ∈ dom p)); tauto.
Qed.

Lemma add_missing_tickers_run (symbols : gset string) (s : state) :
  add_missing_tickers symbols s
  = (Ok tt, set_portfolio (with_missing symbols (portfolio s)) s).
Proof.
  unfold add_missing_tickers, bind, gets, modify, with_missing.
  by rewrite index_union_missing.
Qed.

Lemma with_missing_lookup (symbols : gset string) (p : gmap string num)
    (k : string) :
  with_missing symbols p !! k
  = match p !! k with
    | Some v => Some v
    | None => if decide (k ∈ symbols) then Some NaN else None
    end.
Proof.
  unfold with_missing. rewrite reindex_lookup.
  destruct (p !! k) as [v|] eqn:Hk.
  - rewrite decide_True; [reflexivity|].
    apply elem_of_union_l, elem_of_dom. by exists v.
  - apply not_elem_of_dom in Hk.
    destruct (decide (k ∈ symbols)) as [Hin|Hnin].
    + rewrite decide_True; [reflexivity|]. by apply elem_of_union_r.
    + rewrite decide_False; [reflexivity|].
      rewrite elem_of_union. tauto.
Qed.

Lemma with_missing_dom (symbols : gset string) (p : gmap string num) :
  dom (with_missing symbols p) = dom p ∪ symbols.
Proof.
  apply set_eq. intros k.
  rewrite elem_of_dom, with_missing_lookup, elem_of_union, elem_of_dom.
  destruct (p !! k) as [v|].
  - split; [intros _; left; by exists v|intros _; by exists v].
  - destruct (decide (k ∈ symbols)) as [Hin|Hnin].
    + split; [intros _; by right|intros _; by exists NaN].
    + split; [by intros [? ?]|intros [[? ?]|?]; done].
Qed.

(** The loop of [sharpe_ratios] never meets a symbol without a row: it
    returns the scores and leaves them in the table. *)
Lemma sharpe_loop_run (change : gmap string (DataFrame ChangeRow))
    (todo : list string) (sharpes : gmap string num) (s : state) :
  (forall t, t ∈ todo -> is_Some (portfolio s !! t)) ->
  sharpe_loop change todo sharpes s
  = (Ok (foldl (fun m t => <[t := average_sharpe (change !!! t)]> m)
               sharpes todo),
     set_portfolio
       (foldl (fun m t => <[t := average_sharpe (change !!! t)]> m)
              (portfolio s) todo)
       s).
Proof.
  revert sharpes s. induction todo as [|t todo IH]; intros sharpes s Hrows.
  - simpl. unfold ret. by destruct s.
  - cbn [sharpe_loop foldl]. unfold bind at 1.
    unfold set_sharpe, bind, gets.
    destruct (Hrows t) as [v Hv]; [apply list_elem_of_here|].
    rewrite Hv. unfold modify. cbv zeta. rewrite IH.
    + reflexivity.
    + intros t' Ht'. simpl.
      destruct (decide (t = t')) as [->|Hne].
      * rewrite lookup_insert_eq. by eexists.
      * rewrite lookup_insert_ne by done.
        apply Hrows. by apply list_elem_of_further.
Qed.

Lemma sharpe_ratios_run
    (weekly_data : option (gmap string (DataFrame WeeklyBar))) (s : state) :
  exists (sharpes p' : gmap string num),
    sharpe_ratios weekly_data s = (Ok sharpes, set_portfolio p' s) /\
    (forall t, sharpes !! t = score_of <$> weekly_argument weekly_data s !! t) /\
    (forall t, p' !! t
               = match weekly_argument weekly_data s !! t with
                 | Some df => Some (score_of df)
                 | None => portfolio s !! t
                 end).
Proof.
  set (weekly := weekly_argument weekly_data s).
  set (change := _weekly_change weekly).
  set (score := fun t => average_sharpe (change !!! t)).
  set (s1 := set_portfolio (with_missing (dom change) (portfolio s)) s).
  assert (Hrun : sharpe_ratios weekly_data s
                 = sharpe_loop change (elements (dom change)) ∅ s1).
  { unfold sharpe_ratios, bind.
    destruct weekly_data as [w|]; unfold ret, gets;
      by rewrite add_missing_tickers_run. }
  assert (Hscore : forall t df, weekly !! t = Some df -> score t = score_of df).
  { intros t df Ht. unfold score, score_of, change.
    by rewrite lookup_total_alt, weekly_change_lookup, Ht. }
  assert (Hin : forall t, t ∈ elements (dom change) <-> is_Some (weekly !! t)).
  { intros t. unfold change.
    by rewrite elem_of_elements, weekly_change_dom, elem_of_dom. }
  rewrite Hrun. rewrite (sharpe_loop_run change (elements (dom change)) ∅ s1).
  - eexists _, _. split; [by destruct s|]. split; intros t.
    + rewrite (foldl_insert_lookup score).
      destruct (decide (t ∈ elements (dom change))) as [Ht|Ht].
      * apply Hin in Ht as [df Hdf]. rewrite Hdf. simpl. f_equal.
        by apply Hscore.
      * rewrite Hin, <- eq_None_not_Some in Ht. by rewrite Ht, lookup_empty.
    + rewrite (foldl_insert_lookup score).
      destruct (decide (t ∈ elements (dom change))) as [Ht|Ht].
      * apply Hin in Ht as [df Hdf]. rewrite Hdf. f_equal. by apply Hscore.
      * pose proof Ht as Ht'. rewrite Hin, <- eq_None_not_Some in Ht'.
        rewrite Ht'. simpl. rewrite with_missing_lookup.
        destruct (portfolio s !! t); [reflexivity|].
        rewrite decide_False; [reflexivity|].
        by rewrite <- elem_of_elements.
  - intros t Ht. simpl. rewrite with_missing_lookup.
    destruct (portfolio s !! t); [by eexists|].
    rewrite decide_True; [by eexists|]. by apply elem_of_elements.
Qed.

End Portfolio.

Lemma get_tickers_run (ticker_series : list string) (s : state) :
  let t : gset string := list_to_set ticker_series in
  get_tickers ticker_series s
  = (Ok t, set_portfolio (with_missing t (portfolio s)) (set_tickers t s)).
Proof.
  unfold get_tickers, bind, modify, gets. cbn beta iota.
  by rewrite add_missing_tickers_run.
Qed.

Lemma with_missing_grown (symbols : gset string) (p : gmap string num) :
  grown_by symbols p (with_missing symbols p).
Proof.
  split; [apply with_missing_dom|]. split.
  - intros k v Hk. by rewrite with_missing_lookup, Hk.
  - intros k Hin Hk. rewrite with_missing_lookup, Hk. by rewrite decide_True.
Qed.

(** C9. The step that adds symbols to the portfolio, in [get_tickers] and
    in [sharpe_ratios], only grows the table: its keys become the old keys
    together with the new symbols, every row that was there keeps its score,
    and a new symbol gets a row with a missing score.  [get_tickers] as a
    whole does exactly that, and [sharpe_ratios] as a whole removes no row. *)
Theorem portfolio_only_grows (symbols : gset string) (s : state) :
  (exists s', add_missing_tickers symbols s = (Ok tt, s') /\
     grown_by symbols (portfolio s) (portfolio s')) /\
  (forall ticker_series,
     exists t s', get_tickers ticker_series s = (Ok t, s') /\
       t = list_to_set ticker_series /\
       grown_by t (portfolio s) (portfolio s')) /\
  (forall weekly_data,
     exists sharpes s', sharpe_ratios weekly_data s = (Ok sharpes, s') /\
       dom (portfolio s) ⊆ dom (portfolio s')).
Proof.
  split; [|split].
  - eexists. split; [apply add_missing_tickers_run|].
    apply with_missing_grown.
  - intros ticker_series. eexists _, _.
    split; [apply get_tickers_run|]. split; [reflexivity|].
    apply with_missing_grown.
  - intros weekly_data.
    destruct (sharpe_ratios_run weekly_data s) as (sharpes & p' & Hrun & _ & Hp).
    exists sharpes, (set_portfolio p' s). split; [exact Hrun|].
    intros k Hk. apply elem_of_dom in Hk as [v Hv].
    apply elem_of_dom. simpl. rewrite Hp.
    destruct (weekly_argument weekly_data s !! k); [by eexists|].
    by exists v.
Qed.

(** C10. After [sharpe_ratios], every symbol of the weekly data has its
    score in the result and the same score in its row of the portfolio,
    whether the row was there before or not; every other row of the
    portfolio is as it was, and no other global is written. *)
Theorem sharpe_ratios_upsert
    (weekly_data : option (gmap string (DataFrame WeeklyBar))) (s : state) :
  exists sharpes s',
    sharpe_ratios weekly_data s = (Ok sharpes, s') /\
    (forall t, sharpes !! t
               = score_of <$> weekly_argument weekly_data s !! t) /\
    (forall t score, sharpes !! t = Some score ->
                     portfolio s' !! t = Some score) /\
    (forall k, sharpes !! k = None -> portfolio s' !! k = portfolio s !! k) /\
    tickers s' = tickers s /\
    historical_data s' = historical_data s /\
    cache_file s' = cache_file s /\
    fetch_log s' = fetch_log s.
Proof.
  destruct (sharpe_ratios_run weekly_data s) as (sharpes & p' & Hrun & Hs & Hp).
  exists sharpes, (set_portfolio p' s).
  split; [exact Hrun|]. split; [exact Hs|].
  split; [|split; [|by repeat split]].
  - intros t score Ht. simpl. rewrite Hp. rewrite Hs in Ht.
    destruct (weekly_argument weekly_data s !! t); [exact Ht|discriminate].
  - intros k Hk. simpl. rewrite Hp. rewrite Hs in Hk.
    destruct (weekly_argument weekly_data s !! k); [discriminate|reflexivity].
Qed.

(** ** Samples without a missing value

    On a sample of finite numbers [mean] and [std] are the textbook mean and
    sample standard deviation. *)

Section Samples.

Local Open Scope R_scope.

Lemma fold_add_Fin (xs : list R) (a : R) :
  fold_left add (map Fin xs) (Fin a) = Fin (fold_left Rplus xs a).
Proof.
  revert a. induction xs as [|x xs IH]; intros a; [reflexivity|].
  simpl. apply IH.
Qed.

Lemma total_Fin (xs : list R) : total (map Fin xs) = Fin (Rsum xs).
Proof. apply fold_add_Fin. Qed.

Lemma filter_notna_Fin (xs : list R) :
  List.filter notna (map Fin xs) = map Fin xs.
Proof. induction xs as [|x xs IH]; [reflexivity|]. simpl. by rewrite IH. Qed.

Lemma fold_Rplus_shift (xs : list R) (a : R) :
  fold_left Rplus xs a = a + Rsum xs.
Proof.
  unfold Rsum. revert a. induction xs as [|x xs IH]; intros a; simpl.
  - lra.
  - rewrite IH, (IH (0 + x)). lra.
Qed.

Lemma Rsum_cons (x : R) (xs : list R) : Rsum (x :: xs) = x + Rsum xs.
Proof. unfold Rsum at 1. simpl. rewrite fold_Rplus_shift. lra. Qed.

Lemma Rsum_app (xs ys : list R) : Rsum (xs ++ ys) = Rsum xs + Rsum ys.
Proof.
  induction xs as [|x xs IH]; simpl.
  - unfold Rsum at 2. simpl. lra.
  - rewrite !Rsum_cons, IH. lra.
Qed.

Lemma Rsum_nonneg (f : R -> R) (xs : list R) :
  (forall x, 0 <= f x) -> 0 <= Rsum (map f xs).
Proof.
  intros Hf. induction xs as [|x xs IH]; simpl.
  - unfold Rsum. simpl. lra.
  - rewrite Rsum_cons. pose proof (Hf x). lra.
Qed.

Lemma Rsum_ge_term (f : R -> R) (xs : list R) (x : R) :
  (forall y, 0 <= f y) -> x ∈ xs -> f x <= Rsum (map f xs).
Proof.
  intros Hf Hx. induction Hx as [x xs|x y xs _ IH]; simpl; rewrite Rsum_cons.
  - pose proof (Rsum_nonneg f xs Hf). lra.
  - pose proof (Hf y). lra.
Qed.

Lemma mean_Fin (xs : list R) :
  xs <> [] -> mean (map Fin xs) = Fin (Rmean xs).
Proof.
  intros Hne. unfold mean. rewrite filter_notna_Fin, length_map, total_Fin.
  destruct xs as [|x xs]; [done|]. cbn [length].
  unfold of_nat. rewrite div_Fin; [reflexivity|]. by apply not_0_INR.
Qed.

Lemma var_Fin (xs : list R) :
  (2 <= length xs)%nat -> var (map Fin xs) = Fin (Rvar xs).
Proof.
  intros Hlen. unfold var.
  rewrite filter_notna_Fin, length_map, total_Fin.
  destruct (Nat.leb_spec (length xs) 1) as [?|_]; [lia|].
  unfold of_nat. rewrite div_Fin by (apply not_0_INR; lia).
  rewrite map_map. cbn [sub neg add mul].
  rewrite <- (map_map (fun x => (Rmean xs + - x) * (Rmean xs + - x)) Fin).
  rewrite total_Fin, div_Fin by (apply not_0_INR; lia).
  reflexivity.
Qed.

Lemma Rvar_nonneg (xs : list R) : (2 <= length xs)%nat -> 0 <= Rvar xs.
Proof.
  intros Hlen. unfold Rvar. apply Rmult_le_pos.
  - apply Rsum_nonneg. intros x. apply Rle_0_sqr.
  - left. apply Rinv_0_lt_compat. apply lt_0_INR. lia.
Qed.

Lemma Rvar_pos (xs : list R) (x : R) :
  (2 <= length xs)%nat -> x ∈ xs -> x <> Rmean xs -> 0 < Rvar xs.
Proof.
  intros Hlen Hx Hne. unfold Rvar. apply Rmult_lt_0_compat.
  - eapply Rlt_le_trans;
      [|apply (Rsum_ge_term (fun y => (Rmean xs + - y) * (Rmean xs + - y))
                 xs x); [intros y; apply Rle_0_sqr|exact Hx]].
    cbv beta. apply Rsqr_pos_lt. lra.
  - apply Rinv_0_lt_compat. apply lt_0_INR. lia.
Qed.

Lemma std_Fin (xs : list R) :
  (2 <= length xs)%nat -> std (map Fin xs) = Fin (R_sqrt.sqrt (Rvar xs)).
Proof.
  intros Hlen. unfold std. rewrite var_Fin by exact Hlen.
  unfold sqrt. pose proof (Rvar_nonneg xs Hlen).
  destruct (Rlt_dec (Rvar xs) 0); [lra|reflexivity].
Qed.

(** The ratio of a sample with some spread is the real quotient. *)
Lemma ratio_Fin (xs : list R) (x : R) :
  (2 <= length xs)%nat -> x ∈ xs -> x <> Rmean xs ->
  div (mean (map Fin xs)) (std (map Fin xs))
  = Fin (Rmean xs / R_sqrt.sqrt (Rvar xs)).
Proof.
  intros Hlen Hx Hne.
  rewrite mean_Fin by (destruct xs; [simpl in Hlen; lia|done]).
  rewrite std_Fin by exact Hlen.
  apply div_Fin. apply Rgt_not_eq, sqrt_lt_R0. by eapply Rvar_pos.
Qed.





End Samples.

(** ** The rows that a label slice selects *)

Section Slices.
Context {A : Type}.

Lemma loc_slice_zip (rows : list A) (first a b : Z) :
  map snd (loc_slice a b (zip (seqZ first (Z.of_nat (length rows))) rows))
  = take (Z.to_nat (b - Z.max a first + 1))
         (drop (Z.to_nat (Z.max a first - first)) rows).
Proof.
  revert first. induction rows as [|x rows IH]; intros first.
  - by rewrite drop_nil, take_nil.
  - cbn [length]. rewrite seqZ_cons by lia.
    replace (Z.pred (Z.of_nat (S (length rows))))
      with (Z.of_nat (length rows)) by lia.
    specialize (IH (Z.succ first)). unfold loc_slice in IH |- *.
    cbn [zip_with List.filter fst].
    destruct (Z.leb_spec a first) as [Ha|Ha];
      [destruct (Z.leb_spec first b) as [Hb|Hb]|]; cbn [andb map snd].
    + rewrite IH.
      replace (Z.max a first) with first by lia.
      replace (Z.max a (Z.succ first)) with (Z.succ first) by lia.
      replace (Z.to_nat (first - first)) with O by lia.
      replace (Z.to_nat (Z.succ first - Z.succ first)) with O by lia.
      replace (Z.to_nat (b - first + 1))
        with (S (Z.to_nat (b - Z.succ first + 1))) by lia.
      reflexivity.
    + rewrite IH.
      replace (Z.to_nat (b - Z.max a first + 1)) with O by lia.
      replace (Z.to_nat (b - Z.max a (Z.succ first) + 1)) with O by lia.
      reflexivity.
    + rewrite IH.
      replace (Z.max a first) with a by lia.
      replace (Z.max a (Z.succ first)) with a by lia.
      replace (Z.to_nat (a - first)) with (S (Z.to_nat (a - Z.succ first)))
        by lia.
      reflexivity.
Qed.

Lemma loc_slice_labels (df : DataFrame A) (first a b : Z) :
  map fst df = seqZ first (Z.of_nat (length df)) ->
  map snd (loc_slice a b df)
  = take (Z.to_nat (b - Z.max a first + 1))
         (drop (Z.to_nat (Z.max a first - first)) (map snd df)).
Proof.
  intros Hl. rewrite <- (zip_fst_snd df) at 1.
  change (df.*1) with (map fst df). rewrite Hl.
  change (df.*2) with (map snd df).
  rewrite <- (length_map snd df). apply loc_slice_zip.
Qed.

End Slices.

(** The sample of [_sharpe_single] on a frame with the labels 1, 2, ...:
    with [N] values in the close column, the change entries at the labels
    [max 1 (N - weeks)] to [N]. *)
Lemma weeks_in_question_rows (weekly_change : DataFrame ChangeRow)
    (weeks : Z) :
  map fst weekly_change = seqZ 1 (Z.of_nat (length weekly_change)) ->
  let total_weeks := count (map (fun r => cr_close (snd r)) weekly_change) in
  let first_label := Z.max (total_weeks - weeks) 1 in
  weeks_in_question weekly_change weeks
  = take (Z.to_nat (total_weeks - first_label + 1))
         (drop (Z.to_nat (first_label - 1))
               (map (fun r => cr_change (snd r)) weekly_change)).
Proof.
  intros Hl. cbv zeta. unfold weeks_in_question.
  rewrite <- (map_map snd cr_change), (loc_slice_labels _ 1) by exact Hl.
  rewrite !map_fmap, fmap_take, fmap_drop, <- list_fmap_compose.
  reflexivity.
Qed.

(** ** Weekly series given by their close prices *)

Section SeriesOfCloses.

Local Open Scope R_scope.

Lemma weekly_of_closes_labels (closes : list R) :
  map fst (weekly_of_closes closes) = seqZ 1 (Z.of_nat (length closes)).
Proof.
  unfold weekly_of_closes. apply fst_zip.
  rewrite length_seqZ, length_map. lia.
Qed.

Lemma weekly_of_closes_column (closes : list R) :
  map (fun r => close (snd r)) (weekly_of_closes closes) = map Fin closes.
Proof.
  unfold weekly_of_closes.
  rewrite <- (map_map snd close), (map_fmap snd), snd_zip
    by (rewrite length_seqZ, length_map; lia).
  by rewrite map_map.
Qed.

Lemma ratio_to_prior_Fin (prev : R) (closes : list R) :
  prev <> 0 -> Forall (fun x => x <> 0) closes ->
  ratio_to_prior (Fin prev) (map Fin closes) = map Fin (Rchange prev closes).
Proof.
  intros Hp H. revert prev Hp.
  induction H as [|x xs Hx _ IH]; intros prev Hp; [reflexivity|].
  cbn [map ratio_to_prior Rchange isna]. rewrite div_Fin by exact Hp.
  f_equal. by apply IH.
Qed.

Lemma pct_change_Fin (c : R) (closes : list R) :
  Forall (fun x => x <> 0) (c :: closes) ->
  pct_change (map Fin (c :: closes)) = NaN :: map Fin (Rchange c closes).
Proof.
  intros H. unfold pct_change. rewrite pad_notna.
  - inversion H; subst. cbn [map ratio_to_prior isna]. f_equal.
    by apply ratio_to_prior_Fin.
  - rewrite map_fmap. apply Forall_fmap, Forall_true. done.
Qed.

Lemma change_frame_of_closes (c : R) (closes : list R) :
  Forall (fun x => x <> 0) (c :: closes) ->
  change_frame (weekly_of_closes (c :: closes))
  = zip (seqZ 1 (Z.of_nat (length (c :: closes))))
        (zip_with mkChange (map Fin (c :: closes))
                  (NaN :: map Fin (Rchange c closes))).
Proof.
  intros H. unfold change_frame.
  by rewrite weekly_of_closes_labels, weekly_of_closes_column, pct_change_Fin.
Qed.

End SeriesOfCloses.

(** ** Degenerate samples *)

Section Degenerate.

Lemma std_few (sample : list num) :
  (length (List.filter notna sample) < 2)%nat -> std sample = NaN.
Proof.
  intros H. unfold std, var.
  destruct (Nat.leb_spec (length (List.filter notna sample)) 1) as [_|?];
    [reflexivity|lia].
Qed.











End Degenerate.




(** ** The window of [_sharpe_single] *)

Lemma count_le_length (values : list num) :
  (count values <= Z.of_nat (length values))%Z.
Proof.
  unfold count. apply inj_le. induction values as [|x l IH]; simpl; [lia|].
  destruct (notna x); simpl; lia.
Qed.

(** With more than [weeks] weeks in the frame, the slice of
    [_sharpe_single] has one row more than the [weeks] rows that the
    specification names. *)
Lemma window_rows (weekly_change : DataFrame ChangeRow) (weeks : Z) :
  map fst weekly_change = seqZ 1 (Z.of_nat (length weekly_change)) ->
  let total_weeks := count (map (fun r => cr_close (snd r)) weekly_change) in
  (0 <= weeks < total_weeks)%Z ->
  Z.of_nat (length (weeks_in_question weekly_change weeks))
    = (weeks + 1)%Z /\
  Z.of_nat (length (spec_weeks_in_question weekly_change weeks)) = weeks.
Proof.
  intros Hl N Hw.
  pose proof (count_le_length (map (fun r => cr_close (snd r)) weekly_change))
    as Hle.
  rewrite length_map in Hle. fold N in Hle.
  unfold weeks_in_question, spec_weeks_in_question. fold N.
  rewrite <- !(map_map snd cr_change), !length_map.
  rewrite <- !(length_map snd (loc_slice _ _ _)).
  rewrite !(loc_slice_labels _ 1) by exact Hl.
  rewrite !length_take, !length_drop, !length_map. lia.
Qed.

(** With at most [weeks] weeks in the frame the two samples are the same:
    all the rows up to the label [N]. *)
Lemma window_short (weekly_change : DataFrame ChangeRow) (weeks : Z) :
  Forall (fun r => (1 <= fst r)%Z) weekly_change ->
  (count (map (fun r => cr_close (snd r)) weekly_change) <= weeks)%Z ->
  weeks_in_question weekly_change weeks
  = spec_weeks_in_question weekly_change weeks.
Proof.
  intros Hl Hw. unfold weeks_in_question, spec_weeks_in_question, loc_slice.
  f_equal. apply filter_ext_in. intros r Hr.
  rewrite Forall_forall in Hl.
  specialize (Hl r (proj2 (list_elem_of_In _ _) Hr)).
  f_equal. destruct (Z.leb_spec (count (map (fun r => cr_close (snd r))
                                            weekly_change) - weeks) (fst r)),
    (Z.leb_spec (count (map (fun r => cr_close (snd r)) weekly_change)
                 - weeks + 1) (fst r)); try reflexivity; lia.
Qed.

Section Window.

Local Open Scope R_scope.

Lemma bump_change_frame :
  change_frame (weekly_of_closes bump_closes)
  = zip (seqZ 1 52)
        (zip_with mkChange (map Fin bump_closes)
                  (NaN :: map Fin bump_changes)).
Proof.
  change bump_closes with (1 :: repeat 1 24 ++ [2; 4; 2] ++ repeat 1 24).
  rewrite change_frame_of_closes; [reflexivity|].
  repeat (constructor; [lra|]). constructor.
Qed.

Lemma bump_samples :
  let data := change_frame (weekly_of_closes bump_closes) in
  weeks_in_question data 26 = map Fin (drop 24 bump_changes) /\
  spec_weeks_in_question data 26 = map Fin (drop 25 bump_changes).
Proof.
  cbv zeta. rewrite bump_change_frame. split; vm_compute; reflexivity.
Qed.

Lemma bump_code_mean : Rmean (drop 24 bump_changes) = 1 / 27.
Proof.
  unfold Rmean, Rsum, bump_changes.
  cbn [repeat app Rchange drop fold_left length INR]. lra.
Qed.

Lemma bump_spec_mean : Rmean (drop 25 bump_changes) = 0.
Proof.
  unfold Rmean, Rsum, bump_changes.
  cbn [repeat app Rchange drop fold_left length INR]. lra.
Qed.

Lemma bump_head (n : nat) :
  (n = 24 \/ n = 25)%nat -> exists x rest, drop n bump_changes = x :: rest /\ x = 1.
Proof.
  intros [->| ->]; eexists _, _; (split; [reflexivity|lra]).
Qed.

Lemma bump_ratio (n : nat) :
  (n = 24 \/ n = 25)%nat ->
  Rmean (drop n bump_changes) <> 1 ->
  div (mean (map Fin (drop n bump_changes)))
      (std (map Fin (drop n bump_changes)))
  = Fin (Rmean (drop n bump_changes)
         / R_sqrt.sqrt (Rvar (drop n bump_changes))).
Proof.
  intros Hn Hmean. destruct (bump_head n Hn) as (x & rest & Hx & ->).
  assert (Hlen : (2 <= length (drop n bump_changes))%nat)
    by (destruct Hn as [->| ->]; vm_compute; lia).
  apply (ratio_Fin _ 1 Hlen).
  - rewrite Hx. apply list_elem_of_here.
  - congruence.
Qed.

End Window.

(** C1 at a failing input.  On the 52 weeks of [bump_closes] the 26-week
    ratio of [_sharpe_single] is taken over the 27 changes of the weeks 26
    to 52.  The 26 changes of the weeks 27 to 52, which the claim names,
    have mean zero, so their ratio is zero; the ratio that the program
    returns is not. *)
Theorem sharpe_window_has_one_more_week :
  let data := change_frame (weekly_of_closes bump_closes) in
  length (weeks_in_question data 26) = 27%nat /\
  length (spec_weeks_in_question data 26) = 26%nat /\
  div (mean (spec_weeks_in_question data 26))
      (std (spec_weeks_in_question data 26)) = Fin 0 /\
  _sharpe_single data 26 <> Fin 0.
Proof.
  cbv zeta. unfold _sharpe_single.
  destruct bump_samples as [-> ->].
  split; [reflexivity|]. split; [reflexivity|]. split.
  - rewrite bump_ratio.
    + rewrite bump_spec_mean. f_equal. unfold Rdiv. apply Rmult_0_l.
    + by right.
    + rewrite bump_spec_mean. lra.
  - rewrite bump_ratio.
    + rewrite bump_code_mean. intros H. injection H as H.
      apply Rmult_integral in H as [H|H]; [lra|].
      revert H. apply Rinv_neq_0_compat.
      apply Rgt_not_eq, sqrt_lt_R0.
      destruct (bump_head 24) as (x & rest & Hx & ->); [by left|].
      assert (Hlen : (2 <= length (drop 24 bump_changes))%nat)
        by (vm_compute; lia).
      apply (Rvar_pos _ 1 Hlen).
      * rewrite Hx. apply list_elem_of_here.
      * rewrite bump_code_mean. lra.
    + by left.
    + rewrite bump_code_mean. lra.
Qed.

(** ** The weekly bar of a window *)

Section WeeklyBars.

Lemma gtb_irrefl (a : num) : gtb a a = false.
Proof.
  destruct a as [|s|x]; simpl; [reflexivity|by destruct s|].
  destruct (Rlt_dec x x); [lra|reflexivity].
Qed.

Lemma gtb_above (y m m' : num) :
  gtb y m = false -> gtb m' m = true -> gtb y m' = false.
Proof.
  destruct y as [|sy|y], m as [|sm|m], m' as [|sm'|m']; simpl;
    try discriminate; try reflexivity;
    try (destruct sy, sm, sm'; simpl; congruence);
    try (destruct sy; simpl; congruence);
    try (destruct sm; simpl; congruence);
    try (destruct sm'; simpl; congruence);
    try (destruct sy, sm; simpl; congruence);
    try (destruct sy, sm'; simpl; congruence);
    try (destruct sm, sm'; simpl; congruence).
  all: repeat match goal with
       | |- context [Rlt_dec ?a ?b] => destruct (Rlt_dec a b)
       end; try congruence; try lra.
  all: try (destruct sm; simpl; congruence).
Qed.

Lemma gtb_below (y m m' : num) :
  gtb m y = false -> gtb m m' = true -> gtb m' y = false.
Proof.
  destruct y as [|sy|y], m as [|sm|m], m' as [|sm'|m']; simpl;
    try discriminate; try reflexivity;
    try (destruct sy, sm, sm'; simpl; congruence);
    try (destruct sy; simpl; congruence);
    try (destruct sm; simpl; congruence);
    try (destruct sm'; simpl; congruence);
    try (destruct sy, sm; simpl; congruence);
    try (destruct sy, sm'; simpl; congruence);
    try (destruct sm, sm'; simpl; congruence).
  all: repeat match goal with
       | |- context [Rlt_dec ?a ?b] => destruct (Rlt_dec a b)
       end; try congruence; try lra.
  all: try (destruct sm; simpl; congruence).
Qed.

Lemma fold_max_greatest (rest seen : list num) (m : num) :
  greatest m seen ->
  greatest (fold_left (fun m y => if gtb y m then y else m) rest m)
           (seen ++ rest).
Proof.
  revert seen m. induction rest as [|y rest IH]; intros seen m [Hin Hmax].
  - rewrite app_nil_r. by split.
  - cbn [fold_left]. rewrite (cons_middle y seen rest), app_assoc.
    apply IH. destruct (gtb y m) eqn:Hy; split.
    + apply elem_of_app. right. apply list_elem_of_here.
    + intros z Hz. apply elem_of_app in Hz as [Hz|Hz].
      * eapply gtb_above; [by apply Hmax|exact Hy].
      * apply list_elem_of_singleton in Hz as ->. apply gtb_irrefl.
    + apply elem_of_app. by left.
    + intros z Hz. apply elem_of_app in Hz as [Hz|Hz].
      * by apply Hmax.
      * by apply list_elem_of_singleton in Hz as ->.
Qed.

Lemma fold_min_least (rest seen : list num) (m : num) :
  least m seen ->
  least (fold_left (fun m y => if ltb y m then y else m) rest m)
        (seen ++ rest).
Proof.
  revert seen m. induction rest as [|y rest IH]; intros seen m [Hin Hmin].
  - rewrite app_nil_r. by split.
  - cbn [fold_left]. rewrite (cons_middle y seen rest), app_assoc.
    apply IH. destruct (ltb y m) eqn:Hy; split.
    + apply elem_of_app. right. apply list_elem_of_here.
    + intros z Hz. apply elem_of_app in Hz as [Hz|Hz].
      * unfold ltb in *. eapply gtb_below; [by apply Hmin|exact Hy].
      * apply list_elem_of_singleton in Hz as ->. apply gtb_irrefl.
    + apply elem_of_app. by left.
    + intros z Hz. apply elem_of_app in Hz as [Hz|Hz].
      * by apply Hmin.
      * by apply list_elem_of_singleton in Hz as ->.
Qed.

Lemma py_max_greatest (x : num) (l : list num) :
  exists m, py_max (x :: l) = Ok m /\ greatest m (x :: l).
Proof.
  eexists. split; [reflexivity|].
  apply (fold_max_greatest l [x] x). split.
  - apply list_elem_of_here.
  - intros y Hy. apply list_elem_of_singleton in Hy as ->. apply gtb_irrefl.
Qed.

Lemma py_min_least (x : num) (l : list num) :
  exists m, py_min (x :: l) = Ok m /\ least m (x :: l).
Proof.
  eexists. split; [reflexivity|].
  apply (fold_min_least l [x] x). split.
  - apply list_elem_of_here.
  - intros y Hy. apply list_elem_of_singleton in Hy as ->. apply gtb_irrefl.
Qed.

End WeeklyBars.

Section Aggregation.

Lemma last_map {A B : Type} (f : A -> B) (l : list A) (d : A) :
  List.last (map f l) (f d) = f (List.last l d).
Proof.
  revert d. induction l as [|x l IH]; intros d; [reflexivity|].
  destruct l as [|y l]; [reflexivity|]. apply (IH d).
Qed.

Lemma row_of_single_present (week : list date) (data_pull : SingleFrame)
    (d : date) (rest : list date) :
  present_days (s_index data_pull) week = d :: rest ->
  exists bar,
    row_of_single week (week_series_of_single data_pull week) = Ok bar /\
    aggregates bar week (map (s_cell data_pull) (d :: rest))
               (s_cell data_pull d)
               (s_cell data_pull (List.last rest d)).
Proof.
  intros Hp. unfold week_series_of_single. fold (present_days (s_index data_pull) week).
  rewrite Hp. cbn [map]. unfold row_of_single. cbn [first_item rbind map].
  destruct (py_max_greatest (d_high (s_cell data_pull d))
              (map d_high (map (s_cell data_pull) rest)))
    as (hi & Hhi & Hg).
  destruct (py_min_least (d_low (s_cell data_pull d))
              (map d_low (map (s_cell data_pull) rest)))
    as (lo & Hlo & Hl).
  rewrite Hhi, Hlo. cbn [rbind last_item].
  eexists. split; [reflexivity|].
  unfold aggregates. cbn [weekof open close volume high low map].
  rewrite last_map. by split_and!.
Qed.

Lemma row_of_batch_present (week : list date) (data_pull : MultiFrame)
    (ticker : string) (d : date) (rest : list date) :
  present_days (m_index data_pull) week = d :: rest ->
  exists bar,
    row_of_batch week (week_series_of_batch data_pull week) ticker = Ok bar /\
    aggregates bar week
               (map (fun day => m_cell data_pull day ticker) (d :: rest))
               (m_cell data_pull d ticker)
               (m_cell data_pull (List.last rest d) ticker).
Proof.
  intros Hp. unfold week_series_of_batch. fold (present_days (m_index data_pull) week).
  rewrite Hp. cbn [map]. unfold row_of_batch. cbn [first_item rbind map].
  rewrite !map_map.
  destruct (py_max_greatest (d_high (m_cell data_pull d ticker))
              (map (fun day => d_high (m_cell data_pull day ticker)) rest))
    as (hi & Hhi & Hg).
  destruct (py_min_least (d_low (m_cell data_pull d ticker))
              (map (fun day => d_low (m_cell data_pull day ticker)) rest))
    as (lo & Hlo & Hl).
  rewrite Hhi, Hlo. cbn [rbind last_item].
  eexists. split; [reflexivity|].
  rewrite (last_map (m_cell data_pull)).
  unfold aggregates. cbn [weekof open close volume high low map].
  rewrite !map_map. by split_and!.
Qed.

Lemma row_of_single_absent (week : list date) (data_pull : SingleFrame) :
  present_days (s_index data_pull) week = [] ->
  row_of_single week (week_series_of_single data_pull week) = Raise IndexError.
Proof.
  intros Hp. unfold week_series_of_single.
  fold (present_days (s_index data_pull) week). by rewrite Hp.
Qed.

Lemma row_of_batch_absent (week : list date) (data_pull : MultiFrame)
    (ticker : string) :
  present_days (m_index data_pull) week = [] ->
  row_of_batch week (week_series_of_batch data_pull week) ticker
  = Raise IndexError.
Proof.
  intros Hp. unfold week_series_of_batch.
  fold (present_days (m_index data_pull) week). by rewrite Hp.
Qed.

End Aggregation.

(** C6 at a failing input.  The row built from the answer for one symbol
    does what the claim says: with bars for Monday, Wednesday and Friday it
    has the open of Monday, the close and the volume of Friday, a high that
    is one of the three highs with none of them greater and a low that is
    one of the three lows with none of them smaller.  The row of a symbol
    built from a batched answer does not.  In the last window before
    [example_today] BBB has a daily bar from Monday to Thursday and none on
    Friday, a day on which AAA has one.  The row of BBB built from the
    answer for BBB alone has the open of Monday and the close and the
    volume of Thursday, the last day with a bar.  The row of BBB built from
    the batched answer for AAA and BBB has the open of Monday, but its
    close and its volume are missing: the batched path takes the days that
    have a row in the index shared by the symbols, so the last day it takes
    for BBB is the Friday on which BBB has no bar. *)
Theorem partial_week_in_a_batch :
  let week := window example_today 51 in
  let market := market_reader example_market in
  (exists bar,
     row_of_single example_week
       (week_series_of_single single_mon_wed_fri example_week) = Ok bar /\
     aggregates bar example_week (map example_bar [0; 2; 4])
                (example_bar 0) (example_bar 4)) /\
  List.filter (has_bar example_market "BBB") week = [987; 988; 989; 990] /\
  (exists single bar,
     read_one market "BBB" (week_first week) (week_last week) = Ok single /\
     row_of_single week (week_series_of_single single week) = Ok bar /\
     open bar = Fin 987 /\ close bar = Fin 990 /\ volume bar = Fin 100) /\
  (exists batch bar,
     read_many market ["AAA"; "BBB"] (start_date example_today)
               (end_date example_today) = Ok batch /\
     row_of_batch week (week_series_of_batch batch week) "BBB" = Ok bar /\
     open bar = Fin 987 /\ close bar = NaN /\ volume bar = NaN).
Proof.
  cbv zeta.
  split;
    [exact (row_of_single_present example_week single_mon_wed_fri 0 [2; 4]
              eq_refl)|].
  split; [vm_compute; reflexivity|].
  split; eexists _, _; (split; [reflexivity|]);
    (split; [vm_compute; reflexivity|]);
    repeat split; vm_compute; reflexivity.
Qed.

(** C7, as amended.  In a window where the answer of the reader has a row
    for none of the five days, building the weekly row raises the
    [IndexError] of [week_series[0]], for the answer for one symbol and for
    the batched answer; when this happens for a week that the cache lacks,
    the request has been sent and no row is written. *)
Theorem empty_week_raises_IndexError (week : list date)
    (single : SingleFrame) (batch : MultiFrame) (ticker : string) :
  present_days (s_index single) week = [] ->
  present_days (m_index batch) week = [] ->
  row_of_single week (week_series_of_single single week) = Raise IndexError /\
  row_of_batch week (week_series_of_batch batch week) ticker
    = Raise IndexError /\
  forall (reader : Reader) (df : list WeeklyBar) (i : Z) (s : state),
    List.filter (fun r => bool_decide (weekof r ∈ week)) df = [] ->
    read_one reader ticker (week_first week) (week_last week) = Ok single ->
    week_from_cached reader ticker df (i, week) s
    = (Raise IndexError,
       log_call (CallOne ticker (week_first week) (week_last week)) s).
Proof.
  intros H1 H2. split; [by apply row_of_single_absent|].
  split; [by apply row_of_batch_absent|].
  intros reader df i s Hgap Hread.
  unfold week_from_cached. cbn [snd fst]. rewrite Hgap.
  unfold DataReader_one, bind, modify, lift. rewrite Hread.
  by rewrite row_of_single_absent.
Qed.

Lemma empty_week_raises_IndexError_witness :
  present_days (s_index single_no_day) example_week = [] /\
  present_days (m_index batch_no_day) example_week = [] /\
  row_of_single example_week
    (week_series_of_single single_no_day example_week) = Raise IndexError /\
  row_of_batch example_week
    (week_series_of_batch batch_no_day example_week) "ABC"
    = Raise IndexError.
Proof.
  split; [reflexivity|]. split; [reflexivity|].
  pose proof (empty_week_raises_IndexError example_week single_no_day
                batch_no_day "ABC" eq_refl eq_refl) as (H1 & H2 & _).
  exact (conj H1 H2).
Defined.

(** C7 as stated fails: the error of an empty window is an [IndexError],
    and the program has no [MissingWeekData]. *)
Lemma empty_week_error_is_not_MissingWeekData :
  exists e,
    row_of_single example_week
      (week_series_of_single single_no_day example_week) = Raise e /\
    exn_class e = "IndexError" /\
    exn_class e <> "MissingWeekData".
Proof. exists IndexError. by repeat split. Qed.

(** ** Reasoning on runs *)

Section Runs.

Lemma run_ret {A} (a : A) s (Q : A -> state -> Prop) E :
  Q a s -> run_spec (ret a) s Q E.
Proof. intros H. exact H. Qed.

Lemma run_raise {A} (e : exn) s (Q : A -> state -> Prop)
    (E : exn -> state -> Prop) :
  E e s -> run_spec (raise e) s Q E.
Proof. intros H. exact H. Qed.

Lemma run_gets {A} (f : state -> A) s (Q : A -> state -> Prop) E :
  Q (f s) s -> run_spec (gets f) s Q E.
Proof. intros H. exact H. Qed.

Lemma run_modify (f : state -> state) s (Q : unit -> state -> Prop) E :
  Q tt (f s) -> run_spec (modify f) s Q E.
Proof. intros H. exact H. Qed.

Lemma run_lift {A} (r : result A) s (Q : A -> state -> Prop)
    (E : exn -> state -> Prop) :
  match r with Ok a => Q a s | Raise e => E e s end ->
  run_spec (lift r) s Q E.
Proof. unfold run_spec, lift. by destruct r. Qed.

Lemma run_bind {A B} (m : M A) (k : A -> M B) s (Q : B -> state -> Prop) E :
  run_spec m s (fun a s' => run_spec (k a) s' Q E) E ->
  run_spec (bind m k) s Q E.
Proof. unfold run_spec, bind. by destruct (m s) as [[a|e] s']. Qed.

Lemma run_mono {A} (m : M A) s (Q Q' : A -> state -> Prop)
    (E E' : exn -> state -> Prop) :
  run_spec m s Q E ->
  (forall a s', Q a s' -> Q' a s') ->
  (forall e s', E e s' -> E' e s') ->
  run_spec m s Q' E'.
Proof.
  unfold run_spec. destruct (m s) as [[a|e] s']; intros H HQ HE; auto.
Qed.

(** A loop keeps an invariant that counts the items done. *)
Lemma run_for_each {A} (l : list A) (body : A -> M unit)
    (I : nat -> state -> Prop) (E : exn -> state -> Prop) s :
  I O s ->
  (forall k x s1, l !! k = Some x -> I k s1 ->
                  run_spec (body x) s1 (fun _ => I (S k)) E) ->
  run_spec (for_each l body) s (fun _ => I (length l)) E.
Proof.
  revert I s. induction l as [|x l IH]; intros I s H0 Hstep.
  - exact H0.
  - cbn [for_each length]. apply run_bind.
    eapply run_mono; [apply (Hstep O x s eq_refl H0)| |auto].
    intros u s1 H1. cbv beta.
    apply (IH (fun k => I (S k))); [exact H1|].
    intros k y s2 Hk. apply (Hstep (S k) y s2 Hk).
Qed.

Lemma upd_upd h1 c1 h2 c2 s : upd h2 c2 (upd h1 c1 s) = upd h2 (c1 ++ c2) s.
Proof. unfold upd. simpl. by rewrite app_assoc. Qed.

Lemma upd_same s : upd (historical_data s) [] s = s.
Proof. destruct s. unfold upd. simpl. by rewrite app_nil_r. Qed.

Lemma set_historical_data_upd h s : set_historical_data h s = upd h [] s.
Proof. unfold upd, set_historical_data. by rewrite app_nil_r. Qed.

Lemma log_call_upd c s : log_call c s = upd (historical_data s) [c] s.
Proof. reflexivity. Qed.

Lemma readable_cache s : readable s -> cache s = Readable (cache_file s).
Proof. intros [c Hc]. unfold cache_file. by rewrite Hc. Qed.

Lemma readable_or_not s : readable s \/ exists e, cache s = Unreadable e.
Proof.
  destruct (cache s) as [e|c] eqn:Hc; [right; by exists e|left; by exists c].
Qed.

Lemma lookup_cache_readable s (t : string) (df : list WeeklyBar) :
  cache_file s !! t = Some df -> readable s.
Proof.
  unfold cache_file, readable. destruct (cache s) as [e|c]; [|by eexists].
  by rewrite lookup_empty.
Qed.

Lemma run_read_cache s (Q : gmap string (list WeeklyBar) -> state -> Prop)
    (E : exn -> state -> Prop) :
  readable s -> Q (cache_file s) s -> run_spec read_cache s Q E.
Proof.
  intros Hr HQ. unfold run_spec, read_cache.
  by rewrite (readable_cache s Hr).
Qed.

End Runs.

(** ** [get_historical_data] *)

Section Loader.

Variable reader : Reader.
Variable now : date.

Lemma enumerate_from_lookup {A} (l : list A) (i : Z) (k : nat) :
  enumerate_from i l !! k = (fun w => (i + Z.of_nat k, w)) <$> l !! k.
Proof.
  revert i k. induction l as [|x l IH]; intros i k; [by destruct k|].
  destruct k as [|k]; cbn [enumerate_from].
  - simpl. do 2 f_equal. lia.
  - simpl. rewrite IH. destruct (l !! k); simpl; [|reflexivity].
    do 2 f_equal. lia.
Qed.

Lemma enumerate_lookup {A} (l : list A) (k : nat) (x : Z * A) :
  enumerate l !! k = Some x ->
  fst x = Z.of_nat k /\ l !! k = Some (snd x).
Proof.
  unfold enumerate. rewrite enumerate_from_lookup.
  destruct (l !! k) as [w|]; simpl; [|discriminate].
  intros [= <-]. split; [simpl; lia|reflexivity].
Qed.

Lemma enumerate_from_length {A} (l : list A) (i : Z) :
  length (enumerate_from i l) = length l.
Proof.
  revert i. induction l as [|x l IH]; intros i; simpl; [reflexivity|].
  by rewrite IH.
Qed.

Lemma week_dates_length : length (enumerate (week_dates now)) = 52%nat.
Proof.
  unfold enumerate. rewrite enumerate_from_length.
  unfold week_dates. by rewrite length_map, length_seq.
Qed.

Lemma loc_set_fresh {A} (label : Z) (row : A) (df : DataFrame A) :
  label ∉ map fst df -> loc_set label row df = df ++ [(label, row)].
Proof. intros H. unfold loc_set. by rewrite bool_decide_false. Qed.

Lemma labels_snoc {A} (df : DataFrame A) (k : nat) (row : A) :
  map fst df = seqZ 1 (Z.of_nat k) ->
  loc_set (Z.of_nat k + 1) row df = df ++ [(Z.of_nat k + 1, row)] /\
  map fst (df ++ [(Z.of_nat k + 1, row)]) = seqZ 1 (Z.of_nat (S k)).
Proof.
  intros Hl. split.
  - apply loc_set_fresh. rewrite Hl, elem_of_seqZ. lia.
  - rewrite map_app, Hl, seqZ_S. simpl. do 2 f_equal. lia.
Qed.

Lemma set_row_run (ticker : string) (label : Z) (row : WeeklyBar)
    (s : state) (df : DataFrame WeeklyBar) :
  historical_data s !! ticker = Some df ->
  set_row ticker label row s
  = (Ok tt, upd (<[ticker := loc_set label row df]> (historical_data s)) [] s).
Proof.
  intros H. unfold set_row, bind, gets. rewrite H. unfold modify.
  by rewrite set_historical_data_upd.
Qed.

Lemma row_of_single_error (week : list date) (days : list DailyBar) (e : exn) :
  row_of_single week days = Raise e -> e = IndexError.
Proof.
  destruct days as [|d days]; [by intros [= <-]|discriminate].
Qed.

Lemma row_of_batch_error (week : list date)
    (days : list (string -> DailyBar)) (ticker : string) (e : exn) :
  row_of_batch week days ticker = Raise e -> e = IndexError.
Proof.
  destruct days as [|d days]; [by intros [= <-]|discriminate].
Qed.

(** One week of a cached symbol: the cached bar is written as it is and
    nothing is requested, or the week is requested and its bar written, or
    the request or the empty answer raises. *)
Lemma week_from_cached_run (ticker : string) (df : list WeeklyBar)
    (k : nat) (week : list date) (s : state)
    (rows : DataFrame WeeklyBar) :
  historical_data s !! ticker = Some rows ->
  map fst rows = seqZ 1 (Z.of_nat k) ->
  run_spec (week_from_cached reader ticker df (Z.of_nat k, week)) s
    (fun _ s' => exists row calls,
       s' = upd (<[ticker := rows ++ [(Z.of_nat k + 1, row)]]>
                   (historical_data s)) calls s /\
       Forall (for_symbol ticker) calls /\
       forall r, cached_row df week = Some r -> row = r /\ calls = [])
    (fun e s' =>
       load_error reader e /\ cached_row df week = None /\
       exists calls, s' = upd (historical_data s) calls s /\
                     Forall (for_symbol ticker) calls).
Proof.
  intros Hrows Hl. unfold week_from_cached, cached_row. cbn [fst snd].
  pose proof (fun row => proj1 (labels_snoc rows k row Hl)) as Hset.
  destruct (List.filter _ df) as [|r rest].
  - unfold run_spec, DataReader_one, bind, modify, lift.
    set (c := CallOne ticker (week_first week) (week_last week)).
    assert (Hc : Forall (for_symbol ticker) [c])
      by (constructor; [by eexists _, _|constructor]).
    destruct (read_one reader ticker (week_first week) (week_last week))
      as [data_pull|e] eqn:Hread.
    + destruct (row_of_single week (week_series_of_single data_pull week))
        as [row|e] eqn:Hrow.
      * rewrite (set_row_run _ _ _ _ rows) by exact Hrows.
        exists row, [c]. rewrite Hset, log_call_upd, upd_upd.
        split; [reflexivity|]. split; [exact Hc|]. discriminate.
      * split; [left; by eapply row_of_single_error|].
        split; [reflexivity|]. by exists [c].
    + split; [right; right; by eexists _, _, _|].
      split; [reflexivity|]. by exists [c].
  - unfold run_spec. rewrite (set_row_run _ _ _ _ rows) by exact Hrows.
    exists r, []. rewrite Hset. split; [reflexivity|].
    split; [constructor|]. by intros r' [= <-].
Qed.

(** The 52 weeks of a cached symbol. *)
Lemma from_cache_run (cached : gmap string (list WeeklyBar))
    (ticker : string) (df : list WeeklyBar) (s : state) :
  cached !! ticker = Some df ->
  historical_data s !! ticker = Some [] ->
  run_spec (from_cache reader now cached ticker) s
    (fun _ s' => exists rows calls,
       s' = upd (<[ticker := rows]> (historical_data s)) calls s /\
       map fst rows = seqZ 1 52 /\
       Forall (for_symbol ticker) calls /\
       (gapless now df ->
        rows = verbatim df (enumerate (week_dates now)) /\ calls = []))
    (fun e s' =>
       load_error reader e /\ ~ gapless now df /\
       exists h calls,
         s' = upd h calls s /\ Forall (for_symbol ticker) calls /\
         dom h = dom (historical_data s) /\
         forall t', t' <> ticker -> h !! t' = historical_data s !! t').
Proof.
  intros Hc Hh. unfold from_cache. rewrite Hc.
  set (E := fun (e : exn) (s' : state) =>
       load_error reader e /\ ~ gapless now df /\
       exists h calls,
         s' = upd h calls s /\ Forall (for_symbol ticker) calls /\
         dom h = dom (historical_data s) /\
         forall t', t' <> ticker -> h !! t' = historical_data s !! t').
  set (I := fun (k : nat) (s1 : state) => exists rows calls,
       s1 = upd (<[ticker := rows]> (historical_data s)) calls s /\
       map fst rows = seqZ 1 (Z.of_nat k) /\
       Forall (for_symbol ticker) calls /\
       (gapless now df ->
        rows = verbatim df (take k (enumerate (week_dates now))) /\
        calls = [])).
  eapply run_mono; [apply (run_for_each _ _ I E)| |auto].
  - exists [], []. rewrite insert_id by exact Hh. rewrite upd_same.
    by repeat split.
  - intros k [i week] s1 Hk (rows & calls & -> & Hl & Hf & Hg).
    pose proof Hk as Hk'. apply enumerate_lookup in Hk' as [Hi Hweek].
    cbn [fst snd] in Hi, Hweek. subst i.
    assert (Hin : gapless now df -> is_Some (cached_row df week)).
    { intros Hgap. unfold gapless in Hgap. rewrite Forall_lookup in Hgap.
      by apply (Hgap k). }
    eapply run_mono;
      [apply (week_from_cached_run ticker df k week _ rows);
       [apply lookup_insert_eq|exact Hl]| |].
    + intros _ s2 (row & calls' & -> & Hf' & Hrow).
      exists (rows ++ [(Z.of_nat k + 1, row)]), (calls ++ calls').
      rewrite upd_upd. cbn [historical_data upd]. rewrite insert_insert_eq.
      split; [reflexivity|].
      split; [by apply labels_snoc|].
      split; [by apply Forall_app|].
      intros Hgap. destruct (Hg Hgap) as [-> ->].
      destruct (Hin Hgap) as [r Hr]. destruct (Hrow r Hr) as [-> ->].
      split; [|reflexivity].
      rewrite (take_S_r _ _ _ Hk). unfold verbatim. rewrite omap_app.
      f_equal. simpl. by rewrite Hr.
    + intros e s2 (He & Hnone & calls' & -> & Hf').
      split; [exact He|]. split.
      * intros Hgap. destruct (Hin Hgap) as [r Hr]. congruence.
      * exists (<[ticker := rows]> (historical_data s)), (calls ++ calls').
        rewrite upd_upd. split; [reflexivity|].
        split; [by apply Forall_app|]. split.
        -- rewrite dom_insert_L.
           apply subseteq_union_1_L, singleton_subseteq_l.
           apply elem_of_dom. by eexists.
        -- intros t' Hne. by rewrite lookup_insert_ne.
  - intros _ s' (rows & calls & -> & Hl & Hf & Hg).
    rewrite week_dates_length in Hl, Hg.
    exists rows, calls. split; [reflexivity|]. split; [exact Hl|].
    split; [exact Hf|]. intros Hgap. destruct (Hg Hgap) as [-> ->].
    split; [|reflexivity].
    by rewrite take_ge by (rewrite week_dates_length; lia).
Qed.

(** The symbols that the cache does not have. *)
Lemma pull_missing_run (missing_tickers : list string) (a b : date)
    (s : state) :
  NoDup missing_tickers ->
  (forall t, t ∈ missing_tickers -> historical_data s !! t = Some []) ->
  run_spec (pull_missing reader now missing_tickers a b) s
    (fun _ s' => exists h calls,
       s' = upd h calls s /\ batch_calls missing_tickers a b calls /\
       (forall t, t ∈ missing_tickers ->
          exists df, h !! t = Some df /\ map fst df = seqZ 1 52) /\
       (forall t, t ∉ missing_tickers -> h !! t = historical_data s !! t))
    (fun e s' =>
       load_error reader e /\ missing_tickers <> [] /\
       exists h calls,
         s' = upd h calls s /\ batch_calls missing_tickers a b calls).
Proof.
  intros Hnd Hempty.
  destruct (decide (missing_tickers = [])) as [->|Hsome].
  { exists (historical_data s), []. rewrite upd_same.
    split; [reflexivity|]. split; [constructor|].
    split; [by intros t Ht%elem_of_nil|done]. }
  assert (Hunfold : pull_missing reader now missing_tickers a b
            = (data_pull <- DataReader_many reader missing_tickers a b ;;
               for_each (enumerate (week_dates now)) (fun iw =>
                 let week_series := week_series_of_batch data_pull (snd iw) in
                 for_each missing_tickers (fun ticker =>
                   row <- lift (row_of_batch (snd iw) week_series ticker) ;;
                   set_row ticker (fst iw + 1) row))))
    by (destruct missing_tickers; [done|reflexivity]).
  rewrite Hunfold. clear Hunfold.
  set (c := CallMany missing_tickers a b).
  assert (Hc : batch_calls missing_tickers a b [c])
    by (constructor; [by split|constructor]).
  set (E := fun (e : exn) (s' : state) =>
       load_error reader e /\ missing_tickers <> [] /\
       exists h calls,
         s' = upd h calls s /\ batch_calls missing_tickers a b calls).
  apply run_bind. unfold DataReader_many. apply run_bind, run_modify.
  apply run_lift.
  destruct (read_many reader missing_tickers a b) as [data_pull|e] eqn:Hread;
    [|split; [right; left; by eexists _, _, _
             |split; [exact Hsome|by exists (historical_data s), [c]]]].
  set (Iout := fun (k : nat) (s1 : state) => exists h,
       s1 = upd h [c] s /\
       (forall t, t ∈ missing_tickers ->
          exists df, h !! t = Some df /\ map fst df = seqZ 1 (Z.of_nat k)) /\
       (forall t, t ∉ missing_tickers -> h !! t = historical_data s !! t)).
  eapply run_mono; [apply (run_for_each _ _ Iout E)| |auto].
  - exists (historical_data s). split; [reflexivity|].
    split; [|done]. intros t Ht. exists []. split; [by apply Hempty|done].
  - intros k [i week] s1 Hk (h & -> & Hin & Hout).
    apply enumerate_lookup in Hk as [Hi _]. cbn [fst snd] in *. subst i.
    set (Iin := fun (j : nat) (s2 : state) => exists h2,
       s2 = upd h2 [c] s /\
       (forall j' t, missing_tickers !! j' = Some t ->
          exists df, h2 !! t = Some df /\
            map fst df
            = seqZ 1 (Z.of_nat (if (j' <? j)%nat then S k else k))) /\
       (forall t, t ∉ missing_tickers -> h2 !! t = historical_data s !! t)).
    eapply run_mono; [apply (run_for_each _ _ Iin E)| |auto].
    + exists h. split; [reflexivity|]. split; [|exact Hout].
      intros j' t Ht. apply Hin. by eapply list_elem_of_lookup_2.
    + intros j x s2 Hj (h2 & -> & Hin2 & Hout2).
      apply run_bind, run_lift.
      destruct (row_of_batch week (week_series_of_batch data_pull week) x)
        as [row|e] eqn:Hrow;
        [|split; [left; by eapply row_of_batch_error
                 |split; [exact Hsome|by exists h2, [c]]]].
      destruct (Hin2 j x Hj) as (df & Hdf & Hl).
      rewrite Nat.ltb_irrefl in Hl.
      unfold run_spec. rewrite (set_row_run _ _ _ _ df) by exact Hdf.
      destruct (labels_snoc df k row Hl) as [-> Hl'].
      exists (<[x := df ++ [(Z.of_nat k + 1, row)]]> h2).
      rewrite upd_upd. split; [reflexivity|]. split.
      * intros j' t Ht. destruct (decide (t = x)) as [->|Hne].
        -- rewrite (NoDup_lookup _ _ _ _ Hnd Ht Hj).
           rewrite lookup_insert_eq. eexists. split; [reflexivity|].
           destruct (Nat.ltb_spec j (S j)); [exact Hl'|lia].
        -- rewrite lookup_insert_ne by done.
           destruct (Hin2 j' t Ht) as (df' & Hdf' & Hl'').
           exists df'. split; [exact Hdf'|].
           assert (j' <> j) by (intros ->; congruence).
           destruct (Nat.ltb_spec j' j), (Nat.ltb_spec j' (S j));
             try exact Hl''; lia.
      * intros t Ht. rewrite lookup_insert_ne; [by apply Hout2|].
        intros ->. apply Ht. by eapply list_elem_of_lookup_2.
    + intros _ s2 (h2 & -> & Hin2 & Hout2).
      exists h2. split; [reflexivity|]. split; [|exact Hout2].
      intros t Ht. apply list_elem_of_lookup_1 in Ht as [j' Hj'].
      destruct (Hin2 j' t Hj') as (df & Hdf & Hl). exists df.
      split; [exact Hdf|].
      apply lookup_lt_Some in Hj'.
      destruct (Nat.ltb_spec j' (length missing_tickers)); [exact Hl|lia].
  - intros _ s1 (h & -> & Hin & Hout). rewrite week_dates_length in Hin.
    by exists h, [c].
Qed.

Lemma gap_calls_for (cached : gmap string (list WeeklyBar))
    (todo : list string) (t : string) (df : list WeeklyBar)
    (calls : list call) :
  t ∈ todo -> cached !! t = Some df -> ~ gapless now df ->
  Forall (for_symbol t) calls -> gap_calls now cached todo calls.
Proof.
  intros Ht Hc Hg Hf. eapply Forall_impl; [exact Hf|].
  intros c (a & b & ->). by exists t, df, a, b.
Qed.

(** The symbols that the cache has. *)
Lemma cache_phase_run (cached : gmap string (list WeeklyBar))
    (todo : list string) (s : state) :
  NoDup todo ->
  (forall t, t ∈ todo ->
     historical_data s !! t = Some [] /\ is_Some (cached !! t)) ->
  run_spec (for_each todo (from_cache reader now cached)) s
    (fun _ s' => exists h calls,
       s' = upd h calls s /\ dom h = dom (historical_data s) /\
       gap_calls now cached todo calls /\
       (forall t, t ∈ todo ->
          exists rows, h !! t = Some rows /\ map fst rows = seqZ 1 52 /\
            forall df, cached !! t = Some df -> gapless now df ->
                       rows = verbatim df (enumerate (week_dates now))) /\
       (forall t, t ∉ todo -> h !! t = historical_data s !! t))
    (fun e s' =>
       load_error reader e /\
       (exists t df, t ∈ todo /\ cached !! t = Some df /\ ~ gapless now df) /\
       exists h calls, s' = upd h calls s /\ gap_calls now cached todo calls).
Proof.
  intros Hnd Hpre.
  set (E := fun (e : exn) (s' : state) =>
       load_error reader e /\
       (exists t df, t ∈ todo /\ cached !! t = Some df /\ ~ gapless now df) /\
       exists h calls, s' = upd h calls s /\ gap_calls now cached todo calls).
  set (I := fun (k : nat) (s1 : state) => exists h calls,
       s1 = upd h calls s /\ dom h = dom (historical_data s) /\
       gap_calls now cached todo calls /\
       (forall j t, todo !! j = Some t ->
          if (j <? k)%nat
          then exists rows, h !! t = Some rows /\ map fst rows = seqZ 1 52 /\
                 forall df, cached !! t = Some df -> gapless now df ->
                            rows = verbatim df (enumerate (week_dates now))
          else h !! t = Some []) /\
       (forall t, t ∉ todo -> h !! t = historical_data s !! t)).
  eapply run_mono; [apply (run_for_each _ _ I E)| |auto].
  - exists (historical_data s), []. rewrite upd_same.
    split; [reflexivity|]. split; [reflexivity|]. split; [constructor|].
    split; [|done]. intros j t Hj. apply Hpre. by eapply list_elem_of_lookup_2.
  - intros k x s1 Hk (h & calls & -> & Hdom & Hcalls & Hin & Hout).
    assert (Hx : x ∈ todo) by (by eapply list_elem_of_lookup_2).
    destruct (Hpre x Hx) as [_ [df Hdf]].
    pose proof (Hin k x Hk) as Hhx. rewrite Nat.ltb_irrefl in Hhx.
    eapply run_mono; [apply (from_cache_run cached x df _ Hdf); exact Hhx| |].
    + intros _ s2 (rows & calls' & -> & Hl & Hf & Hg).
      cbn [historical_data upd].
      exists (<[x := rows]> h), (calls ++ calls'). rewrite upd_upd.
      split; [reflexivity|]. split.
      { rewrite dom_insert_L, <- Hdom.
        apply subseteq_union_1_L, singleton_subseteq_l.
        apply elem_of_dom. by eexists. }
      split.
      { apply Forall_app. split; [exact Hcalls|].
        apply Forall_forall. intros c Hc.
        rewrite Forall_forall in Hf. destruct (Hf c Hc) as (a & b & ->).
        exists x, df, a, b. split; [reflexivity|]. split; [exact Hx|].
        split; [exact Hdf|]. intros Hgap. destruct (Hg Hgap) as [_ ->]. by apply elem_of_nil in Hc. }
      split.
      * intros j t Ht. destruct (decide (t = x)) as [->|Hne].
        -- rewrite (NoDup_lookup _ _ _ _ Hnd Ht Hk).
           destruct (Nat.ltb_spec k (S k)); [|lia].
           exists rows. rewrite lookup_insert_eq.
           split; [reflexivity|]. split; [exact Hl|].
           intros df' Hdf' Hgap. rewrite Hdf in Hdf'. injection Hdf' as <-.
           by apply Hg.
        -- rewrite lookup_insert_ne by done.
           assert (j <> k) by (intros ->; congruence).
           pose proof (Hin j t Ht) as Hj.
           destruct (Nat.ltb_spec j k), (Nat.ltb_spec j (S k));
             try exact Hj; lia.
      * intros t Ht. rewrite lookup_insert_ne; [by apply Hout|].
        by intros ->.
    + intros e s2 (He & Hngap & h' & calls' & -> & Hf & _).
      split; [exact He|]. split; [by exists x, df|].
      exists h', (calls ++ calls'). rewrite upd_upd.
      split; [reflexivity|].
      apply Forall_app. split; [exact Hcalls|]. by eapply gap_calls_for.
  - intros _ s' (h & calls & -> & Hdom & Hcalls & Hin & Hout).
    exists h, calls. split; [reflexivity|]. split; [exact Hdom|].
    split; [exact Hcalls|]. split; [|exact Hout].
    intros t Ht. apply list_elem_of_lookup_1 in Ht as [j Hj].
    pose proof (Hin j t Hj) as Ht. apply lookup_lt_Some in Hj.
    destruct (Nat.ltb_spec j (length todo)); [exact Ht|lia].
Qed.

Lemma elem_of_empty_frames (h : gmap string (DataFrame WeeklyBar))
    (t : string) :
  t ∈ empty_frames h <-> h !! t = Some [].
Proof.
  unfold empty_frames. rewrite elem_of_elements, elem_of_dom. split.
  - intros [df Hdf]. apply map_lookup_filter_Some in Hdf as [Hdf Hnil].
    simpl in Hnil. by subst df.
  - intros Ht. exists []. by apply map_lookup_filter_Some.
Qed.

Lemma NoDup_empty_frames (h : gmap string (DataFrame WeeklyBar)) :
  NoDup (empty_frames h).
Proof. unfold empty_frames. apply NoDup_elements. Qed.

Lemma seqZ_52_not_nil {A} (df : DataFrame A) :
  map fst df = seqZ 1 52 -> df <> [].
Proof. by intros H ->. Qed.

(** The whole of [get_historical_data]. *)
Lemma load_run_some (syms : gset string) (s : state) :
  readable s ->
  run_spec (get_historical_data reader now (Some syms)) s
    (fun h s' =>
       dom h = syms /\
       (forall t df, h !! t = Some df -> map fst df = seqZ 1 52) /\
       (forall t df, t ∈ syms -> cache_file s !! t = Some df -> gapless now df ->
          h !! t = Some (verbatim df (enumerate (week_dates now)))) /\
       exists calls,
         s' = set_cache_file (fmap (map snd) h) (upd h calls s) /\
         calls_ok now syms (cache_file s) calls)
    (fun e s' =>
       load_error reader e /\
       (exists t, t ∈ syms /\ needs_fetch now (cache_file s) t) /\
       exists h calls, s' = upd h calls s /\ calls_ok now syms (cache_file s) calls).
Proof.
  intros Hread.
  set (cached := cache_file s).
  set (h0 := gset_to_gmap [] syms : gmap string (DataFrame WeeklyBar)).
  set (mt := elements (syms ∖ dom cached)).
  assert (Hmt : forall t, t ∈ mt <-> t ∈ syms /\ cached !! t = None).
  { intros t. unfold mt.
    by rewrite elem_of_elements, elem_of_difference, not_elem_of_dom. }
  assert (Hh0 : forall t df, h0 !! t = Some df <-> t ∈ syms /\ df = []).
  { intros t df. unfold h0. rewrite lookup_gset_to_gmap_Some.
    split; intros [? ?]; by split. }
  assert (HokA : forall a b calls, batch_calls mt a b calls ->
                                   calls_ok now syms cached calls).
  { intros a b calls Hf. eapply Forall_impl; [exact Hf|].
    intros c [-> Hsome]. split.
    - destruct mt as [|t0 mt']; [done|]. exists t0. apply list_elem_of_here.
    - intros t Ht. simpl in Ht. apply Hmt in Ht as [Hs Ht].
      split; [exact Hs|]. unfold needs_fetch. by rewrite Ht. }
  assert (HokB : forall todo calls,
            (forall t, t ∈ todo -> t ∈ syms) ->
            gap_calls now cached todo calls -> calls_ok now syms cached calls).
  { intros todo calls Htodo Hf. eapply Forall_impl; [exact Hf|].
    intros c (t & df & a & b & -> & Ht & Hdf & Hg). split; [by exists t|].
    intros t' Ht'. simpl in Ht'. subst t'. split; [by apply Htodo|].
    unfold needs_fetch. by rewrite Hdf. }
  unfold get_historical_data. apply run_bind, run_ret. cbv beta zeta.
  apply run_bind, run_read_cache; [exact Hread|]. cbv beta.
  apply run_bind, run_modify. cbv beta.
  rewrite set_historical_data_upd. fold cached. fold mt. fold h0.
  apply run_bind.
  eapply run_mono; [apply pull_missing_run; [apply NoDup_elements|]| |].
  { intros t Ht. cbn [historical_data upd]. apply Hh0.
    apply Hmt in Ht as [Ht _]. by split. }
  2:{ intros e s1 (He & Hsome & h & calls & -> & Hcalls).
      split; [exact He|]. split.
      - destruct mt as [|t mt'] eqn:Hmt'; [done|]. exists t.
        destruct (proj1 (Hmt t)) as [Ht Hnone]; [apply list_elem_of_here|].
        split; [exact Ht|]. unfold needs_fetch. by rewrite Hnone.
      - exists h, calls. rewrite upd_upd. split; [reflexivity|].
        by eapply HokA. }
  intros _ s1 (hA & callsA & -> & HcallsA & HinA & HoutA).
  rewrite upd_upd. cbn [app]. cbn [historical_data upd] in HoutA.
  apply run_bind, run_gets. cbn [historical_data upd].
  assert (Hef : forall t, t ∈ empty_frames hA ->
                          t ∈ syms /\ (t ∉ mt) /\ is_Some (cached !! t)).
  { intros t Ht. apply elem_of_empty_frames in Ht.
    assert (Hnot : t ∉ mt).
    { intros Hin. destruct (HinA t Hin) as (df & Hdf & Hl).
      rewrite Ht in Hdf. injection Hdf as <-. discriminate. }
    rewrite (HoutA t Hnot) in Ht. apply Hh0 in Ht as [Hs _].
    split; [exact Hs|]. split; [exact Hnot|].
    destruct (cached !! t) eqn:Hc; [by eexists|].
    exfalso. apply Hnot, Hmt. by split. }
  apply run_bind.
  eapply run_mono;
    [apply (cache_phase_run cached (empty_frames hA));
     [apply NoDup_empty_frames|]| |].
  { intros t Ht. cbn [historical_data upd]. split.
    - by apply elem_of_empty_frames.
    - by apply Hef. }
  2:{ intros e s2 (He & (t & df & Ht & Hdf & Hg) & h & calls & -> & Hcalls).
      split; [exact He|]. split.
      - exists t. split; [by apply Hef|]. unfold needs_fetch. by rewrite Hdf.
      - exists h, (callsA ++ calls). rewrite upd_upd. split; [reflexivity|].
        apply Forall_app. split; [by eapply HokA|].
        eapply HokB; [|exact Hcalls]. intros t0 Ht0. by apply Hef. }
  intros _ s2 (hB & callsB & -> & Hdom & HcallsB & HinB & HoutB).
  rewrite upd_upd. cbn [historical_data upd] in Hdom, HoutB.
  apply run_bind, run_gets. apply run_bind, run_modify. apply run_gets.
  cbn [historical_data upd set_cache_file].
  assert (HdomA : dom hA = syms).
  { apply set_eq. intros t. rewrite elem_of_dom.
    destruct (decide (t ∈ mt)) as [Hin|Hnin].
    - destruct (HinA t Hin) as (df & -> & _). apply Hmt in Hin as [Hin _].
      split; [done|by eexists].
    - rewrite (HoutA t Hnin). split.
      + intros [df Hdf]. by apply Hh0 in Hdf as [? _].
      + intros Hin. exists []. by apply Hh0. }
  assert (Hempty : forall t, t ∈ syms -> t ∉ mt -> t ∈ empty_frames hA).
  { intros t Hs Hnot. apply elem_of_empty_frames.
    rewrite (HoutA t Hnot). by apply Hh0. }
  split; [by rewrite Hdom|]. split; [|split].
  - intros t df Hdf.
    destruct (decide (t ∈ empty_frames hA)) as [Hin|Hnin].
    + destruct (HinB t Hin) as (rows & Hrows & Hl & _). congruence.
    + rewrite (HoutB t Hnin) in Hdf.
      destruct (decide (t ∈ mt)) as [Hm|Hm].
      * destruct (HinA t Hm) as (df' & Hdf' & Hl). congruence.
      * exfalso. apply Hnin, Hempty; [|exact Hm].
        rewrite <- HdomA. apply elem_of_dom. by eexists.
  - intros t df Hs Hc Hg.
    assert (Hm : t ∉ mt) by (rewrite Hmt; intros [_ ?]; congruence).
    destruct (HinB t (Hempty t Hs Hm)) as (rows & Hrows & _ & Hv).
    rewrite Hrows. f_equal. by apply Hv.
  - exists (callsA ++ callsB). split; [reflexivity|].
    apply Forall_app. split; [by eapply HokA|].
    eapply HokB; [|exact HcallsB]. intros t0 Ht0. by apply Hef.
Qed.

Lemma load_none (s : state) :
  get_historical_data reader now None s
  = get_historical_data reader now (Some (tickers s)) s.
Proof. reflexivity. Qed.

(** A cache file that cannot be read ends the call at once. *)
Lemma load_unreadable (symbols : option (gset string)) (s : state)
    (e : exn) :
  cache s = Unreadable e ->
  get_historical_data reader now symbols s = (Raise e, s).
Proof.
  intros Hc. unfold get_historical_data.
  destruct symbols; unfold bind, ret, gets, read_cache; by rewrite Hc.
Qed.

Lemma load_run (symbols : option (gset string)) (s : state) :
  readable s ->
  run_spec (get_historical_data reader now symbols) s
    (fun h s' =>
       dom h = requested symbols s /\
       (forall t df, h !! t = Some df -> map fst df = seqZ 1 52) /\
       (forall t df, t ∈ requested symbols s ->
          cache_file s !! t = Some df -> gapless now df ->
          h !! t = Some (verbatim df (enumerate (week_dates now)))) /\
       exists calls,
         s' = set_cache_file (fmap (map snd) h) (upd h calls s) /\
         calls_ok now (requested symbols s) (cache_file s) calls)
    (fun e s' =>
       load_error reader e /\
       (exists t, t ∈ requested symbols s /\ needs_fetch now (cache_file s) t) /\
       exists h calls, s' = upd h calls s /\ calls_ok now (requested symbols s) (cache_file s) calls).
Proof.
  intros Hread. destruct symbols as [syms|]; [by apply load_run_some|].
  unfold run_spec. rewrite load_none. by apply load_run_some.
Qed.


(** C8.  A requested symbol that the cache has with a bar in every one of
    the 52 windows is never named in a request to the reader, whether the
    call returns or another symbol makes it raise, and in the frames
    returned its rows are the cached bars as they are, under the labels 1
    to 52; when every requested symbol is such a symbol the call returns
    and sends no request at all. *)
Theorem cached_gapless_no_fetch (symbols : option (gset string))
    (s : state) (t : string) (df : list WeeklyBar) :
  t ∈ requested symbols s ->
  cache_file s !! t = Some df ->
  gapless now df ->
  match get_historical_data reader now symbols s with
  | (Ok h, s') =>
      h !! t = Some (verbatim df (enumerate (week_dates now))) /\
      exists calls, fetch_log s' = fetch_log s ++ calls /\
                    Forall (fun c => ~ mentions t c) calls
  | (Raise e, s') =>
      exists calls, fetch_log s' = fetch_log s ++ calls /\
                    Forall (fun c => ~ mentions t c) calls
  end /\
  ((forall t', t' ∈ requested symbols s ->
      ~ needs_fetch now (cache_file s) t') ->
   exists h s', get_historical_data reader now symbols s = (Ok h, s') /\
                fetch_log s' = fetch_log s).
Proof.
  intros Hin Hc Hg.
  assert (Hno : forall calls,
            calls_ok now (requested symbols s) (cache_file s) calls ->
            Forall (fun c => ~ mentions t c) calls).
  { intros calls Hok. eapply Forall_impl; [exact Hok|].
    intros c [_ Hm] Ht. destruct (Hm t Ht) as [_ Hneed].
    unfold needs_fetch in Hneed. rewrite Hc in Hneed. contradiction. }
  pose proof (load_run symbols s (lookup_cache_readable s t df Hc)) as H.
  unfold run_spec in H.
  destruct (get_historical_data reader now symbols s) as [[h|e] s'].
  - destruct H as (_ & _ & Hv & calls & -> & Hok). split.
    + split; [by apply (Hv t df)|]. exists calls. split; [reflexivity|].
      by apply Hno.
    + intros Hall. exists h, (set_cache_file (map snd <$> h) (upd h calls s)).
      split; [reflexivity|]. cbn [fetch_log set_cache_file upd].
      destruct calls as [|c calls]; [apply app_nil_r|].
      exfalso. apply Forall_cons in Hok as [[[t' Ht'] Hm] _].
      destruct (Hm t' Ht') as [Hreq Hneed]. by apply (Hall t').
  - destruct H as (_ & (t' & Ht' & Hneed) & h & calls & -> & Hok). split.
    + exists calls. split; [reflexivity|]. by apply Hno.
    + intros Hall. by destruct (Hall t' Ht').
Qed.

End Loader.


Lemma cached_weeks_gapless : gapless example_today cached_weeks.
Proof.
  unfold gapless.
  repeat (constructor; [eexists; vm_compute; reflexivity|]). constructor.
Defined.

Lemma cached_gapless_no_fetch_witness :
  "ABC" ∈ requested (Some {[ "ABC" ]}) cached_state /\
  cache_file cached_state !! "ABC" = Some cached_weeks /\
  gapless example_today cached_weeks /\
  exists h s',
    get_historical_data empty_reader example_today (Some {[ "ABC" ]})
      cached_state = (Ok h, s') /\
    h !! "ABC"
    = Some (verbatim cached_weeks (enumerate (week_dates example_today))) /\
    fetch_log s' = [].
Proof.
  assert (H1 : "ABC" ∈ requested (Some {[ "ABC" ]}) cached_state)
    by (apply elem_of_singleton; reflexivity).
  assert (H2 : cache_file cached_state !! "ABC" = Some cached_weeks)
    by apply lookup_singleton_eq.
  split; [exact H1|]. split; [exact H2|].
  split; [exact cached_weeks_gapless|].
  pose proof (cached_gapless_no_fetch empty_reader example_today
                (Some {[ "ABC" ]}) cached_state "ABC" cached_weeks
                H1 H2 cached_weeks_gapless) as [Hrun Hall].
  destruct Hall as (h & s' & Heq & Hlog).
  - intros t' Ht'. cbn [requested] in Ht'.
    apply elem_of_singleton in Ht'. subst t'.
    unfold needs_fetch. rewrite H2. intros Hn. apply Hn.
    exact cached_weeks_gapless.
  - rewrite Heq in Hrun. destruct Hrun as [Hv _].
    exists h, s'. split; [exact Heq|]. split; [exact Hv|exact Hlog].
Defined.

(** ** The batched pull and the pull of one week *)

(** On the answers of any reader the two ways of building a weekly row
    agree as soon as the two answers have the same present days in the week
    and the same cells for the symbol on those days. *)
Lemma row_of_batch_map (week : list date) (cell : date -> string -> DailyBar)
    (days : list date) (ticker : string) :
  row_of_batch week (map cell days) ticker
  = row_of_single week (map (fun day => cell day ticker) days).
Proof.
  unfold row_of_batch, row_of_single.
  destruct days as [|d days]; [reflexivity|].
  cbn [map first_item last_item rbind]. rewrite !map_map.
  by rewrite (last_map (fun day => cell day ticker)), (last_map cell).
Qed.

Lemma batch_row_is_single_row (week : list date) (batch : MultiFrame)
    (single : SingleFrame) (ticker : string) :
  present_days (m_index batch) week = present_days (s_index single) week ->
  (forall day, day ∈ present_days (s_index single) week ->
               m_cell batch day ticker = s_cell single day) ->
  row_of_batch week (week_series_of_batch batch week) ticker
  = row_of_single week (week_series_of_single single week).
Proof.
  intros Hdays Hcells. unfold week_series_of_batch, week_series_of_single.
  fold (present_days (m_index batch) week).
  fold (present_days (s_index single) week).
  rewrite row_of_batch_map, Hdays. f_equal.
  apply map_ext_in. intros day Hday. apply Hcells. by apply list_elem_of_In.
Qed.

(** C4 at a failing input.  Pulled in one batch with AAA, which has a bar
    on the last Friday, BBB gets a last weekly bar whose close is missing;
    pulled week by week, it gets the close of its Thursday.  The first run
    sends the one batched request, the second one request per window. *)
Theorem batched_pull_differs :
  let batched :=
    get_historical_data (market_reader example_market) example_today
      (Some {[ "AAA"; "BBB" ]}) initial_state in
  let by_week :=
    get_historical_data (market_reader example_market) example_today
      (Some {[ "BBB" ]}) stale_state in
  last_close batched "BBB" = Some NaN /\
  last_close by_week "BBB" = Some (Fin 990) /\
  length (fetch_log (snd batched)) = 1%nat /\
  length (fetch_log (snd by_week)) = 52%nat.
Proof. cbv zeta. repeat split; vm_compute; reflexivity. Qed.

(** * Further properties *)

(** ** The 52 windows *)

Section Windows.

Variable now : date.

Lemma week_dates_lookup (k : nat) :
  (k < 52)%nat -> week_dates now !! k = Some (window now k).
Proof.
  intros Hk. unfold week_dates.
  rewrite map_fmap, list_lookup_fmap, lookup_seq_lt by exact Hk.
  cbn [fmap option_fmap option_map Nat.add map seq].
  unfold window, monday, start_date. f_equal.
  do 4 (f_equal; [lia|]). f_equal. lia.
Qed.

Lemma week_dates_count : length (week_dates now) = 52%nat.
Proof. unfold week_dates. by rewrite length_map, length_seq. Qed.

Lemma week_dates_lookup_inv (k : nat) (week : list date) :
  week_dates now !! k = Some week -> (k < 52)%nat /\ week = window now k.
Proof.
  intros H. assert (Hk : (k < 52)%nat).
  { rewrite <- week_dates_count. by eapply lookup_lt_Some. }
  split; [exact Hk|]. rewrite (week_dates_lookup k Hk) in H. congruence.
Qed.


Lemma elem_of_window (k : nat) (d : date) :
  d ∈ window now k <-> monday now k <= d <= monday now k + 4.
Proof.
  unfold window. rewrite !elem_of_cons, elem_of_nil. lia.
Qed.

Lemma window_disjoint (k k' : nat) (d : date) :
  d ∈ window now k -> d ∈ window now k' -> k = k'.
Proof. rewrite !elem_of_window. unfold monday. lia. Qed.

End Windows.


(** ** The frames of [_weekly_change] *)

Section ChangeFrames.

Lemma change_frame_closes (df : DataFrame WeeklyBar) :
  map (fun r => cr_close (snd r)) (change_frame df)
  = map (fun r => close (snd r)) df.
Proof.
  unfold change_frame.
  rewrite <- (map_map snd cr_close), (map_fmap snd), snd_zip
    by (rewrite length_zip_with, pct_change_length, !length_map; lia).
  rewrite map_fmap, fmap_zip_with_l; [reflexivity|done|].
  by rewrite pct_change_length.
Qed.

Lemma change_frame_changes (df : DataFrame WeeklyBar) :
  map (fun r => cr_change (snd r)) (change_frame df)
  = pct_change (map (fun r => close (snd r)) df).
Proof.
  unfold change_frame.
  rewrite <- (map_map snd cr_change), (map_fmap snd), snd_zip
    by (rewrite length_zip_with, pct_change_length, !length_map; lia).
  rewrite map_fmap, fmap_zip_with_r; [reflexivity|done|].
  by rewrite pct_change_length.
Qed.

Lemma pct_change_head (x : num) (values : list num) :
  exists rest, pct_change (x :: values) = NaN :: rest.
Proof.
  unfold pct_change. cbn [pad ratio_to_prior]. eexists.
  f_equal. destruct x; reflexivity.
Qed.

End ChangeFrames.

(** X2.  [_weekly_change] answers for exactly the symbols of its argument;
    the frame of a symbol keeps the index and the close column of the weekly
    frame, and the change of its first row is missing whatever the closes
    are. *)
Theorem weekly_change_shape
    (weekly_data : gmap string (DataFrame WeeklyBar)) :
  dom (_weekly_change weekly_data) = dom weekly_data /\
  forall ticker df, weekly_data !! ticker = Some df ->
    exists cf : DataFrame ChangeRow,
      _weekly_change weekly_data !! ticker = Some cf /\
      map fst cf = map fst df /\
      map (fun r => cr_close (snd r)) cf = map (fun r => close (snd r)) df /\
      forall r, cf !! O = Some r -> cr_change (snd r) = NaN.
Proof.
  split; [apply weekly_change_dom|].
  intros ticker df Hdf. exists (change_frame df).
  rewrite weekly_change_lookup, Hdf. split; [reflexivity|].
  split; [apply change_frame_labels|]. split; [apply change_frame_closes|].
  intros r Hr.
  assert (Hc : map (fun r => cr_change (snd r)) (change_frame df) !! O
               = Some (cr_change (snd r)))
    by (by rewrite map_fmap, list_lookup_fmap, Hr).
  rewrite change_frame_changes in Hc.
  destruct df as [|[l bar] df]; [discriminate|]. cbn [map] in Hc.
  destruct (pct_change_head (close (snd (l, bar)))
              (map (fun r => close (snd r)) df)) as [rest Hrest].
  rewrite Hrest in Hc. by injection Hc.
Qed.

(** ** Scores of short series, and scoring twice *)

Section Scores.

Lemma notna_count_filter {A : Type} (f : A -> num) (p : A -> bool)
    (l : list A) :
  (length (List.filter notna (map f (List.filter p l)))
   <= length (List.filter notna (map f l)))%nat.
Proof.
  induction l as [|x l IH]; [reflexivity|]. cbn [List.filter map].
  destruct (p x); cbn [List.filter map]; destruct (notna (f x));
    cbn [length]; lia.
Qed.

Lemma pct_change_short (values : list num) :
  (length values <= 2)%nat ->
  (length (List.filter notna (pct_change values)) <= 1)%nat.
Proof.
  intros Hlen. destruct values as [|x values]; [simpl; lia|].
  destruct (pct_change_head x values) as [rest Hrest].
  pose proof (pct_change_length (x :: values)) as Hl.
  rewrite Hrest in Hl |- *. cbn [List.filter notna isna negb].
  pose proof (filter_length_le notna rest). cbn [length] in Hl, Hlen. lia.
Qed.

Lemma sharpe_single_short (df : DataFrame WeeklyBar) (weeks : Z) :
  (length df <= 2)%nat -> _sharpe_single (change_frame df) weeks = NaN.
Proof.
  intros Hlen. unfold _sharpe_single. rewrite std_few; [apply div_NaN_r|].
  unfold weeks_in_question, loc_slice.
  eapply Nat.le_lt_trans; [apply notna_count_filter|].
  rewrite change_frame_changes.
  eapply Nat.le_lt_trans; [apply pct_change_short|lia].
  by rewrite length_map.
Qed.

Lemma score_of_short (df : DataFrame WeeklyBar) :
  (length df <= 2)%nat -> score_of df = NaN.
Proof.
  intros Hlen. unfold score_of, average_sharpe.
  by rewrite !sharpe_single_short.
Qed.

End Scores.

(** X3.  On weekly data in which every frame has rows, with the labels 1,
    2, ..., a symbol whose frame has one or two rows has at most one change
    to look at: [sharpe_ratios] gives it the missing value as its score, in
    the result and in the portfolio, and raises nothing. *)
Theorem short_series_score_is_NaN
    (weekly_data : option (gmap string (DataFrame WeeklyBar))) (s : state)
    (ticker : string) (df : DataFrame WeeklyBar) :
  (forall t df', weekly_argument weekly_data s !! t = Some df' ->
                 numbered df') ->
  weekly_argument weekly_data s !! ticker = Some df ->
  (length df <= 2)%nat ->
  exists sharpes s',
    sharpe_ratios weekly_data s = (Ok sharpes, s') /\
    sharpes !! ticker = Some NaN /\
    portfolio s' !! ticker = Some NaN.
Proof.
  intros _ Hdf Hlen.
  destruct (sharpe_ratios_run weekly_data s) as (sharpes & p' & Hrun & Hs & Hp).
  exists sharpes, (set_portfolio p' s). split; [exact Hrun|].
  rewrite Hs. cbn [portfolio set_portfolio]. rewrite Hp, Hdf.
  cbn [fmap option_fmap option_map].
  by rewrite (score_of_short df Hlen).
Qed.

Lemma short_series_score_is_NaN_witness :
  let df := weekly_of_closes [100%R; 101%R] in
  let weekly : gmap string (DataFrame WeeklyBar) := {[ "ABC" := df ]} in
  numbered df /\
  weekly_argument (Some weekly) initial_state !! "ABC" = Some df /\
  (length df <= 2)%nat /\
  exists sharpes s',
    sharpe_ratios (Some weekly) initial_state = (Ok sharpes, s') /\
    sharpes !! "ABC" = Some NaN /\
    portfolio s' !! "ABC" = Some NaN.
Proof.
  cbv zeta.
  assert (H0 : numbered (weekly_of_closes [100%R; 101%R]))
    by (split; [discriminate|apply weekly_of_closes_labels]).
  assert (H1 : weekly_argument
                 (Some {[ "ABC" := weekly_of_closes [100%R; 101%R] ]})
                 initial_state !! "ABC"
               = Some (weekly_of_closes [100%R; 101%R]))
    by apply lookup_singleton_eq.
  assert (H2 : (length (weekly_of_closes [100%R; 101%R]) <= 2)%nat)
    by (vm_compute; lia).
  split; [exact H0|]. split; [exact H1|]. split; [exact H2|].
  apply (short_series_score_is_NaN
           (Some {[ "ABC" := weekly_of_closes [100%R; 101%R] ]})
           initial_state "ABC" (weekly_of_closes [100%R; 101%R]));
    [|exact H1|exact H2].
  intros t df' Hdf'. cbn [weekly_argument] in Hdf'.
  apply lookup_singleton_Some in Hdf' as [_ <-]. exact H0.
Defined.


(** ** The entry points in a row *)

(** X6.  The three entry points in a row: after [get_tickers] on a sheet,
    [get_historical_data()] without argument loads exactly the symbols of
    the sheet, and [sharpe_ratios()] without argument then scores exactly
    those symbols and leaves each score in the portfolio, which still has
    every row it had at the start.  If the load raises, the ticker set is
    the one of the sheet and the portfolio is as [get_tickers] left it. *)
Theorem pipeline_scores_the_sheet (reader : Reader) (now : date)
    (ticker_series : list string) (s : state) :
  exists t s1,
    get_tickers ticker_series s = (Ok t, s1) /\
    t = list_to_set ticker_series /\
    match get_historical_data reader now None s1 with
    | (Ok h, s2) =>
        dom h = t /\
        exists sharpes s3,
          sharpe_ratios None s2 = (Ok sharpes, s3) /\
          dom sharpes = t /\
          (forall k score, sharpes !! k = Some score ->
                           portfolio s3 !! k = Some score) /\
          dom (portfolio s) ⊆ dom (portfolio s3)
    | (Raise e, s2) =>
        tickers s2 = t /\ portfolio s2 = portfolio s1
    end.
Proof.
  set (t := list_to_set ticker_series : gset string).
  exists t, (set_portfolio (with_missing t (portfolio s)) (set_tickers t s)).
  split; [apply get_tickers_run|]. split; [reflexivity|].
  set (s1 := set_portfolio (with_missing t (portfolio s)) (set_tickers t s)).
  destruct (readable_or_not s1) as [Hread|[e0 He0]];
    [|by rewrite (load_unreadable reader now None s1 e0 He0)].
  pose proof (load_run reader now None s1 Hread) as H. unfold run_spec in H.
  destruct (get_historical_data reader now None s1) as [[h|e] s2].
  - destruct H as (Hdom & _ & _ & calls & -> & _).
    cbn [requested tickers s1 set_portfolio set_tickers] in Hdom.
    split; [exact Hdom|].
    set (s2 := set_cache_file (map snd <$> h) (upd h calls s1)).
    destruct (sharpe_ratios_run None s2) as (sharpes & p' & Hrun & Hs & Hp).
    cbn [weekly_argument historical_data s2 set_cache_file upd] in Hs, Hp.
    exists sharpes, (set_portfolio p' s2). split; [exact Hrun|]. split.
    + rewrite <- Hdom. apply set_eq. intros k.
      by rewrite !elem_of_dom, Hs, fmap_is_Some.
    + split.
      * intros k score Hk. cbn [portfolio set_portfolio]. rewrite Hp.
        rewrite Hs in Hk. by destruct (h !! k).
      * intros k Hk. apply elem_of_dom in Hk as [v Hv].
        apply elem_of_dom. cbn [portfolio set_portfolio]. rewrite Hp.
        destruct (h !! k); [by eexists|].
        cbn [portfolio s2 set_cache_file upd s1 set_portfolio].
        rewrite with_missing_lookup, Hv. by eexists.
  - destruct H as (_ & _ & h & calls & -> & _). by split.
Qed.

(** ** The requests of a load, one by one *)

Section ExactLoad.

Variable reader : Reader.
Variable now : date.

Lemma run_conj {A} (m : M A) (s : state) (Q1 Q2 : A -> state -> Prop)
    (E1 E2 : exn -> state -> Prop) :
  run_spec m s Q1 E1 -> run_spec m s Q2 E2 ->
  run_spec m s (fun a s' => Q1 a s' /\ Q2 a s')
           (fun e s' => E1 e s' /\ E2 e s').
Proof. unfold run_spec. destruct (m s) as [[a|e] s']; by split. Qed.

Lemma upd_inj h1 c1 h2 c2 s :
  upd h1 c1 s = upd h2 c2 s -> h1 = h2 /\ c1 = c2.
Proof.
  unfold upd. intros [= -> Hc]. split; [reflexivity|].
  by apply app_inv_head in Hc.
Qed.

Lemma loc_set_Forall {A} (P : Z * A -> Prop) (label : Z) (row : A)
    (df : DataFrame A) :
  Forall P df -> P (label, row) -> Forall P (loc_set label row df).
Proof.
  intros Hdf Hrow. unfold loc_set. destruct (bool_decide _).
  - rewrite map_fmap. apply Forall_fmap.
    eapply Forall_impl; [exact Hdf|]. intros r Hr. cbn.
    by destruct (fst r =? label).
  - apply Forall_app. split; [exact Hdf|]. by constructor.
Qed.

Lemma row_of_single_weekof (week : list date) (days : list DailyBar)
    (bar : WeeklyBar) :
  row_of_single week days = Ok bar -> weekof bar = week_first week.
Proof.
  destruct days as [|d days]; [discriminate|]. by intros [= <-].
Qed.

Lemma row_of_batch_weekof (week : list date)
    (days : list (string -> DailyBar)) (ticker : string) (bar : WeeklyBar) :
  row_of_batch week days ticker = Ok bar -> weekof bar = week_first week.
Proof.
  destruct days as [|d days]; [discriminate|]. by intros [= <-].
Qed.

Lemma fetched_row_in_week (k : nat) (row : WeeklyBar) :
  (k < 52)%nat -> weekof row = week_first (window now k) ->
  row_in_week now (Z.of_nat k + 1, row).
Proof.
  intros Hk Hw. exists k. split; [reflexivity|]. split; [exact Hk|].
  cbn [snd]. rewrite Hw. apply list_elem_of_here.
Qed.

Lemma cached_row_in_week (df : list WeeklyBar) (week : list date)
    (r : WeeklyBar) :
  cached_row df week = Some r -> weekof r ∈ week.
Proof.
  unfold cached_row. intros H.
  assert (Hin : In r (List.filter (fun r => bool_decide (weekof r ∈ week)) df)).
  { destruct (List.filter _ df) as [|r' l]; [discriminate|].
    injection H as ->. by left. }
  apply filter_In in Hin as [_ Hin]. by apply bool_decide_eq_true in Hin.
Qed.

Lemma frames_in_weeks_insert (h : gmap string (DataFrame WeeklyBar))
    (t : string) (rows : DataFrame WeeklyBar) :
  frames_in_weeks now h -> Forall (row_in_week now) rows ->
  frames_in_weeks now (<[t := rows]> h).
Proof.
  intros Hh Hrows t' df. destruct (decide (t' = t)) as [->|Hne].
  - rewrite lookup_insert_eq. by intros [= <-].
  - rewrite lookup_insert_ne by done. apply Hh.
Qed.

(** One week of a cached symbol, with the request it costs. *)
Lemma week_from_cached_exact (ticker : string) (df : list WeeklyBar)
    (k : nat) (week : list date) (s : state) (rows : DataFrame WeeklyBar) :
  week_dates now !! k = Some week ->
  historical_data s !! ticker = Some rows ->
  Forall (row_in_week now) rows ->
  run_spec (week_from_cached reader ticker df (Z.of_nat k, week)) s
    (fun _ s' => exists rows',
       s' = upd (<[ticker := rows']> (historical_data s))
                (week_requests ticker df week) s /\
       Forall (row_in_week now) rows')
    (fun e s' =>
       s' = upd (historical_data s) (week_requests ticker df week) s).
Proof.
  intros Hweek Hrows Hok.
  apply week_dates_lookup_inv in Hweek as [Hk ->].
  unfold week_from_cached, week_requests. cbn [fst snd].
  destruct (cached_row df (window now k)) as [r|] eqn:Hrow.
  - pose proof (cached_row_in_week _ _ _ Hrow) as Hin.
    unfold cached_row in Hrow.
    destruct (List.filter _ df) as [|r' rest]; [discriminate|].
    injection Hrow as ->.
    unfold run_spec. rewrite (set_row_run _ _ _ _ rows) by exact Hrows.
    eexists. split; [reflexivity|]. apply loc_set_Forall; [exact Hok|].
    exists k. by repeat split.
  - unfold cached_row in Hrow.
    destruct (List.filter _ df) as [|r' rest]; [|discriminate].
    unfold run_spec, DataReader_one, bind, modify, lift.
    destruct (read_one reader ticker _ _) as [data_pull|e]; [|reflexivity].
    destruct (row_of_single (window now k)
                (week_series_of_single data_pull (window now k)))
      as [row|e] eqn:Hr; [|reflexivity].
    rewrite (set_row_run _ _ _ _ rows) by exact Hrows.
    rewrite log_call_upd, upd_upd. cbn [historical_data upd].
    eexists. split; [reflexivity|]. apply loc_set_Forall; [exact Hok|].
    apply fetched_row_in_week; [exact Hk|].
    by eapply row_of_single_weekof.
Qed.

Lemma flat_map_take_prefix {A B} (f : A -> list B) (l : list A) (k : nat) :
  flat_map f (take k l) `prefix_of` flat_map f l.
Proof.
  rewrite <- (take_drop k l) at 2. rewrite flat_map_app.
  by apply prefix_app_r.
Qed.

Lemma dom_insert_present (h : gmap string (DataFrame WeeklyBar))
    (t : string) (rows : DataFrame WeeklyBar) :
  is_Some (h !! t) -> dom (<[t := rows]> h) = dom h.
Proof.
  intros Ht. rewrite dom_insert_L.
  apply subseteq_union_1_L, singleton_subseteq_l. by apply elem_of_dom.
Qed.

(** One cached symbol, with the requests it costs. *)
Lemma from_cache_exact (cached : gmap string (list WeeklyBar))
    (ticker : string) (df : list WeeklyBar) (s : state) :
  cached !! ticker = Some df ->
  is_Some (historical_data s !! ticker) ->
  frames_in_weeks now (historical_data s) ->
  run_spec (from_cache reader now cached ticker) s
    (fun _ s' => exists h,
       s' = upd h (gap_requests now ticker df) s /\
       frames_in_weeks now h /\ dom h = dom (historical_data s))
    (fun e s' => exists h calls,
       s' = upd h calls s /\ calls `prefix_of` gap_requests now ticker df /\
       frames_in_weeks now h /\ dom h = dom (historical_data s)).
Proof.
  intros Hc [rows0 Hrows0] Hframes. unfold from_cache. rewrite Hc.
  set (E := fun (e : exn) (s' : state) => exists h calls,
       s' = upd h calls s /\ calls `prefix_of` gap_requests now ticker df /\
       frames_in_weeks now h /\ dom h = dom (historical_data s)).
  set (I := fun (k : nat) (s1 : state) => exists rows,
       s1 = upd (<[ticker := rows]> (historical_data s))
                (flat_map (week_requests ticker df) (take k (week_dates now)))
                s /\
       Forall (row_in_week now) rows).
  eapply run_mono; [apply (run_for_each _ _ I E)| |auto].
  - exists rows0. rewrite insert_id by exact Hrows0.
    rewrite take_0. cbn [flat_map]. rewrite upd_same.
    split; [reflexivity|]. by eapply Hframes.
  - intros k [i week] s1 Hk (rows & -> & Hrows).
    apply enumerate_lookup in Hk as [Hi Hweek].
    cbn [fst snd] in Hi, Hweek. subst i.
    eapply run_mono;
      [apply (week_from_cached_exact ticker df k week _ rows);
       [exact Hweek|apply lookup_insert_eq|exact Hrows]| |].
    + intros _ s2 (rows' & -> & Hrows').
      exists rows'. rewrite upd_upd. cbn [historical_data upd].
      rewrite insert_insert_eq.
      rewrite (take_S_r _ _ _ Hweek), flat_map_app. cbn [flat_map].
      rewrite app_nil_r. by split.
    + intros e s2 ->. rewrite upd_upd. cbn [historical_data upd].
      eexists _, _. split; [reflexivity|].
      split;
        [|split; [by apply frames_in_weeks_insert
                 |apply dom_insert_present; by eexists]].
      unfold gap_requests.
      replace (flat_map (week_requests ticker df) (take k (week_dates now))
               ++ week_requests ticker df week)
        with (flat_map (week_requests ticker df)
                       (take (S k) (week_dates now))).
      * apply flat_map_take_prefix.
      * rewrite (take_S_r _ _ _ Hweek), flat_map_app. cbn [flat_map].
        by rewrite app_nil_r.
  - intros _ s' (rows & -> & Hrows). rewrite week_dates_length.
    rewrite take_ge by (rewrite week_dates_count; lia).
    exists (<[ticker := rows]> (historical_data s)).
    split; [reflexivity|]. split.
    + by apply frames_in_weeks_insert.
    + apply dom_insert_present. by eexists.
Qed.

(** The symbols that the cache has, with the requests they cost. *)
Lemma cache_phase_exact (cached : gmap string (list WeeklyBar))
    (todo : list string) (s : state) :
  (forall t, t ∈ todo ->
     is_Some (historical_data s !! t) /\ is_Some (cached !! t)) ->
  frames_in_weeks now (historical_data s) ->
  run_spec (for_each todo (from_cache reader now cached)) s
    (fun _ s' => exists h,
       s' = upd h (flat_map (fun t => gap_requests now t (cached !!! t)) todo)
                s /\
       frames_in_weeks now h /\ dom h = dom (historical_data s))
    (fun e s' => exists h calls,
       s' = upd h calls s /\
       calls `prefix_of`
         flat_map (fun t => gap_requests now t (cached !!! t)) todo /\
       frames_in_weeks now h /\ dom h = dom (historical_data s)).
Proof.
  intros Hpre Hframes.
  set (G := fun t : string => gap_requests now t (cached !!! t)).
  set (E := fun (e : exn) (s' : state) => exists h calls,
       s' = upd h calls s /\ calls `prefix_of` flat_map G todo /\
       frames_in_weeks now h /\ dom h = dom (historical_data s)).
  set (I := fun (k : nat) (s1 : state) => exists h,
       s1 = upd h (flat_map G (take k todo)) s /\
       frames_in_weeks now h /\ dom h = dom (historical_data s)).
  eapply run_mono; [apply (run_for_each _ _ I E)| |auto].
  - exists (historical_data s). rewrite take_0. cbn [flat_map].
    rewrite upd_same. by repeat split.
  - intros k x s1 Hk (h & -> & Hh & Hdom).
    assert (Hx : x ∈ todo) by (by eapply list_elem_of_lookup_2).
    destruct (Hpre x Hx) as [Hsome [df Hdf]].
    assert (HG : G x = gap_requests now x df).
    { unfold G. by rewrite (lookup_total_correct _ _ _ Hdf). }
    assert (Hstep : flat_map G (take (S k) todo)
                    = flat_map G (take k todo) ++ G x).
    { rewrite (take_S_r _ _ _ Hk), flat_map_app. cbn [flat_map].
      by rewrite app_nil_r. }
    eapply run_mono; [apply (from_cache_exact cached x df _ Hdf)| |].
    + cbn [historical_data upd]. apply elem_of_dom. rewrite Hdom.
      by apply elem_of_dom.
    + exact Hh.
    + intros _ s2 (h' & -> & Hh' & Hdom'). cbn [historical_data upd] in Hdom'.
      exists h'. rewrite upd_upd, Hstep, HG.
      split; [reflexivity|]. split; [exact Hh'|congruence].
    + intros e s2 (h' & calls & -> & Hpref & Hh' & Hdom').
      cbn [historical_data upd] in Hdom'.
      exists h', (flat_map G (take k todo) ++ calls). rewrite upd_upd.
      split; [reflexivity|]. split; [|split; [exact Hh'|congruence]].
      transitivity (flat_map G (take (S k) todo));
        [|apply flat_map_take_prefix].
      rewrite Hstep, HG. by apply prefix_app.
  - intros _ s' (h & -> & Hh & Hdom). rewrite take_ge by lia. by exists h.
Qed.

(** The symbols that the cache does not have, with the request they
    cost. *)
Lemma pull_missing_exact (missing_tickers : list string) (s : state) :
  (forall t, t ∈ missing_tickers -> is_Some (historical_data s !! t)) ->
  frames_in_weeks now (historical_data s) ->
  run_spec
    (pull_missing reader now missing_tickers (start_date now) (end_date now))
    s
    (fun _ s' => exists h,
       s' = upd h (batch_request now missing_tickers) s /\
       frames_in_weeks now h /\ dom h = dom (historical_data s))
    (fun e s' => exists h,
       s' = upd h (batch_request now missing_tickers) s /\
       frames_in_weeks now h /\ dom h = dom (historical_data s)).
Proof.
  intros Hpre Hframes.
  destruct (decide (missing_tickers = [])) as [->|Hsome].
  { exists (historical_data s). cbn [batch_request]. rewrite upd_same.
    by split. }
  set (c := CallMany missing_tickers (start_date now) (end_date now)).
  assert (Hreq : batch_request now missing_tickers = [c])
    by (destruct missing_tickers; [done|reflexivity]).
  assert (Hunfold :
            pull_missing reader now missing_tickers (start_date now)
                         (end_date now)
            = (data_pull <- DataReader_many reader missing_tickers
                              (start_date now) (end_date now) ;;
               for_each (enumerate (week_dates now)) (fun iw =>
                 let week_series := week_series_of_batch data_pull (snd iw) in
                 for_each missing_tickers (fun ticker =>
                   row <- lift (row_of_batch (snd iw) week_series ticker) ;;
                   set_row ticker (fst iw + 1) row))))
    by (destruct missing_tickers; [done|reflexivity]).
  rewrite Hunfold, Hreq. clear Hunfold Hreq.
  set (E := fun (e : exn) (s' : state) => exists h,
       s' = upd h [c] s /\ frames_in_weeks now h /\
       dom h = dom (historical_data s)).
  set (I := fun (k : nat) (s1 : state) => exists h,
       s1 = upd h [c] s /\ frames_in_weeks now h /\
       dom h = dom (historical_data s)).
  apply run_bind. unfold DataReader_many. apply run_bind, run_modify.
  apply run_lift.
  destruct (read_many reader missing_tickers _ _) as [data_pull|e];
    [|by exists (historical_data s)].
  eapply run_mono; [apply (run_for_each _ _ I E)| |auto].
  - exists (historical_data s). by repeat split.
  - intros k [i week] s1 Hk Hinv.
    apply enumerate_lookup in Hk as [Hi Hweek].
    cbn [fst snd] in *. subst i.
    apply week_dates_lookup_inv in Hweek as [Hk ->].
    eapply run_mono; [apply (run_for_each _ _ (fun _ => I k) E)| |auto].
    + exact Hinv.
    + intros j x s2 Hj (h2 & -> & Hh2 & Hdom2).
      apply run_bind, run_lift.
      destruct (row_of_batch (window now k)
                  (week_series_of_batch data_pull (window now k)) x)
        as [row|e] eqn:Hrow; [|by exists h2].
      assert (Hx : is_Some (h2 !! x)).
      { apply elem_of_dom. rewrite Hdom2. apply elem_of_dom, Hpre.
        by eapply list_elem_of_lookup_2. }
      destruct Hx as [df Hdf].
      unfold run_spec. rewrite (set_row_run _ _ _ _ df) by exact Hdf.
      rewrite upd_upd. cbn [historical_data upd app].
      eexists. split; [reflexivity|]. split.
      * apply frames_in_weeks_insert; [exact Hh2|].
        apply loc_set_Forall; [by eapply Hh2|].
        apply fetched_row_in_week; [exact Hk|].
        by eapply row_of_batch_weekof.
      * rewrite <- Hdom2. apply dom_insert_present. by eexists.
    + intros u s2 H. exact H.
  - intros _ s1 (h & -> & Hh & Hdom). by exists h.
Qed.

(** The whole of [get_historical_data], with its requests in order. *)
Lemma load_exact_some (syms : gset string) (s : state) :
  readable s ->
  run_spec (get_historical_data reader now (Some syms)) s
    (fun h s' =>
       s' = set_cache_file (fmap (map snd) h)
              (upd h (load_requests now syms (cache_file s)) s) /\
       frames_in_weeks now h)
    (fun e s' => exists h calls,
       s' = upd h calls s /\
       calls `prefix_of` load_requests now syms (cache_file s) /\
       frames_in_weeks now h /\ dom h = syms).
Proof.
  intros Hread.
  set (cached := cache_file s).
  set (h0 := gset_to_gmap [] syms : gmap string (DataFrame WeeklyBar)).
  set (mt := elements (syms ∖ dom cached)).
  set (todo := elements (syms ∩ dom cached)).
  assert (Hmt : forall t, t ∈ mt <-> t ∈ syms /\ cached !! t = None).
  { intros t. unfold mt.
    by rewrite elem_of_elements, elem_of_difference, not_elem_of_dom. }
  assert (Hh0 : forall t df, h0 !! t = Some df <-> t ∈ syms /\ df = []).
  { intros t df. unfold h0. rewrite lookup_gset_to_gmap_Some.
    split; intros [? ?]; by split. }
  assert (Hdom0 : dom h0 = syms) by apply dom_gset_to_gmap.
  assert (Hreq : load_requests now syms cached
                 = batch_request now mt
                   ++ flat_map (fun t => gap_requests now t (cached !!! t))
                               todo) by reflexivity.
  rewrite Hreq. clear Hreq.
  unfold get_historical_data. apply run_bind, run_ret. cbv beta zeta.
  apply run_bind, run_read_cache; [exact Hread|]. cbv beta.
  apply run_bind, run_modify. cbv beta.
  rewrite set_historical_data_upd. fold cached. fold mt. fold h0.
  apply run_bind.
  eapply run_mono;
    [apply run_conj;
     [apply pull_missing_run; [apply NoDup_elements|]
     |apply pull_missing_exact]| |].
  { intros t Ht. cbn [historical_data upd]. apply Hh0.
    apply Hmt in Ht as [Ht _]. by split. }
  { intros t Ht. cbn [historical_data upd]. exists []. apply Hh0.
    apply Hmt in Ht as [Ht _]. by split. }
  { intros t df Hdf. cbn [historical_data upd] in Hdf.
    apply Hh0 in Hdf as [_ ->]. constructor. }
  2:{ intros e s1 [_ (h & -> & Hh & Hdom)]. rewrite upd_upd. cbn [app].
      cbn [historical_data upd] in Hdom.
      exists h, (batch_request now mt). split; [reflexivity|].
      split; [by apply prefix_app_r|]. split; [exact Hh|].
      by rewrite Hdom. }
  intros _ s1 [(hA & callsA & -> & _ & HinA & HoutA)
                 (h & Heq & HframesA & HdomA)].
  cbn [historical_data upd] in HdomA.
  apply upd_inj in Heq as [<- ->].
  rewrite upd_upd. cbn [app]. cbn [historical_data upd] in HoutA.
  apply run_bind, run_gets. cbn [historical_data upd].
  assert (Htodo : forall t, t ∈ todo <-> hA !! t = Some []).
  { intros t. unfold todo.
    rewrite elem_of_elements, elem_of_intersection, elem_of_dom. split.
    - intros [Hs Hc].
      assert (Hnot : t ∉ mt).
      { rewrite Hmt. intros [_ Hnone]. rewrite Hnone in Hc.
        by destruct Hc. }
      rewrite (HoutA t Hnot). by apply Hh0.
    - intros Ht.
      assert (Hnot : t ∉ mt).
      { intros Hin. destruct (HinA t Hin) as (df & Hdf & Hl).
        rewrite Ht in Hdf. injection Hdf as <-. discriminate. }
      rewrite (HoutA t Hnot) in Ht. apply Hh0 in Ht as [Hs _].
      split; [exact Hs|].
      destruct (cached !! t) eqn:Hc; [by eexists|].
      exfalso. apply Hnot, Hmt. by split. }
  assert (Hef : empty_frames hA = todo).
  { unfold empty_frames, todo. f_equal. apply set_eq. intros t.
    rewrite <- (elem_of_elements (dom _)), <- (elem_of_elements (_ ∩ _)).
    fold (empty_frames hA). fold todo.
    by rewrite elem_of_empty_frames, Htodo. }
  rewrite Hef. apply run_bind.
  eapply run_mono; [apply (cache_phase_exact cached todo)| |].
  { intros t Ht. cbn [historical_data upd]. split.
    - apply Htodo in Ht. by eexists.
    - unfold todo in Ht.
      apply elem_of_elements, elem_of_intersection in Ht as [_ Ht].
      by apply elem_of_dom. }
  { exact HframesA. }
  2:{ intros e s2 (h & calls & -> & Hpref & Hh & Hdom). rewrite upd_upd.
      cbn [historical_data upd] in Hdom.
      exists h, (batch_request now mt ++ calls). split; [reflexivity|].
      split; [by apply prefix_app|]. split; [exact Hh|].
      by rewrite Hdom, HdomA. }
  intros _ s2 (hB & -> & HframesB & _). rewrite upd_upd.
  apply run_bind, run_gets. apply run_bind, run_modify. apply run_gets.
  cbn [historical_data upd set_cache_file]. by split.
Qed.

Lemma load_exact (symbols : option (gset string)) (s : state) :
  readable s ->
  run_spec (get_historical_data reader now symbols) s
    (fun h s' =>
       s' = set_cache_file (fmap (map snd) h)
              (upd h (load_requests now (requested symbols s) (cache_file s))
                   s) /\
       frames_in_weeks now h)
    (fun e s' => exists h calls,
       s' = upd h calls s /\
       calls `prefix_of`
         load_requests now (requested symbols s) (cache_file s) /\
       frames_in_weeks now h /\ dom h = requested symbols s).
Proof.
  intros Hread. destruct symbols as [syms|]; [by apply load_exact_some|].
  unfold run_spec. rewrite load_none. by apply load_exact_some.
Qed.

End ExactLoad.

(** ** What a load writes and sends *)


(** X7.  The requests of [get_historical_data], in the order in which they
    are sent: when symbols are missing from the cache, one batched request
    for all of them from [start_date] to [end_date]; then, for each
    requested symbol that the cache has, one request per window without a
    cached bar, from the first to the last day of that window, oldest
    window first.  A call that raises has sent a prefix of them. *)
Theorem load_request_log (reader : Reader) (now : date)
    (symbols : option (gset string)) (s : state) :
  match get_historical_data reader now symbols s with
  | (Ok _, s') =>
      fetch_log s'
      = fetch_log s
        ++ load_requests now (requested symbols s) (cache_file s)
  | (Raise _, s') =>
      exists calls,
        fetch_log s' = fetch_log s ++ calls /\
        calls `prefix_of`
          load_requests now (requested symbols s) (cache_file s)
  end.
Proof.
  destruct (readable_or_not s) as [Hread|[e0 He0]].
  - pose proof (load_exact reader now symbols s Hread) as H.
    unfold run_spec in H.
    destruct (get_historical_data reader now symbols s) as [[h|e] s'].
    + by destruct H as [-> _].
    + destruct H as (h & calls & -> & Hpref & _). by exists calls.
  - rewrite (load_unreadable reader now symbols s e0 He0). exists [].
    split; [by rewrite app_nil_r|apply prefix_nil].
Qed.

(** ** Rows and their windows *)

Section Reload.

Variable now : date.

Lemma head_filter_unique {A} (p : A -> bool) (l : list A) (k : nat) (x : A) :
  l !! k = Some x ->
  (forall j y, l !! j = Some y -> p y = true <-> j = k) ->
  head (List.filter p l) = Some x.
Proof.
  revert k. induction l as [|y l IH]; intros k Hk Hp; [done|].
  cbn [List.filter]. destruct k as [|k].
  - injection Hk as ->.
    by rewrite (proj2 (Hp 0%nat x eq_refl) eq_refl).
  - destruct (p y) eqn:Hy.
    + by apply (Hp 0%nat y eq_refl) in Hy.
    + apply (IH k Hk). intros j z Hj. rewrite (Hp (S j) z Hj). lia.
Qed.

Lemma omap_all {A B} (f : A -> option B) (l : list A) (k : list B) :
  length k = length l ->
  (forall j x, l !! j = Some x -> f x = k !! j) ->
  omap f l = k.
Proof.
  revert k. induction l as [|x l IH]; intros [|y k] Hlen Hf; try done.
  cbn [omap list_omap]. rewrite (Hf 0%nat x eq_refl). cbn.
  f_equal. apply IH; [by injection Hlen|].
  intros j z Hj. apply (Hf (S j) z Hj).
Qed.

Lemma frame_length (F : DataFrame WeeklyBar) :
  map fst F = seqZ 1 52 -> length F = 52%nat.
Proof.
  intros H. apply (f_equal length) in H.
  rewrite length_map, length_seqZ in H. lia.
Qed.

Lemma frame_row (F : DataFrame WeeklyBar) (k : nat) (lr : Z * WeeklyBar) :
  map fst F = seqZ 1 52 -> Forall (row_in_week now) F ->
  F !! k = Some lr ->
  (k < 52)%nat /\ fst lr = Z.of_nat k + 1 /\
  weekof (snd lr) ∈ window now k.
Proof.
  intros Hl Hf Hk.
  assert (Hlab : map fst F !! k = Some (fst lr))
    by (by rewrite map_fmap, list_lookup_fmap, Hk).
  rewrite Hl in Hlab. apply lookup_seqZ in Hlab as [Hlab Hlt].
  rewrite Forall_lookup in Hf.
  destruct (Hf k lr Hk) as (k0 & Hk0 & _ & Hin).
  assert (k0 = k) by lia. subst k0. split; [lia|]. split; [lia|exact Hin].
Qed.

Lemma aligned_cached_row (rows : list WeeklyBar) (k : nat) (r : WeeklyBar) :
  (forall j y, rows !! j = Some y -> weekof y ∈ window now j) ->
  rows !! k = Some r ->
  cached_row rows (window now k) = Some r.
Proof.
  intros Hal Hk. unfold cached_row. apply (head_filter_unique _ _ k _ Hk).
  intros j y Hj. rewrite bool_decide_eq_true. split.
  - intros Hin. eapply (window_disjoint now); [by eapply Hal|exact Hin].
  - intros <-. by eapply Hal.
Qed.

Lemma aligned_gapless (rows : list WeeklyBar) :
  length rows = 52%nat ->
  (forall j y, rows !! j = Some y -> weekof y ∈ window now j) ->
  gapless now rows.
Proof.
  intros Hlen Hal. unfold gapless. apply Forall_lookup. intros k week Hk.
  apply week_dates_lookup_inv in Hk as [Hk ->].
  destruct (rows !! k) as [r|] eqn:Hr.
  - rewrite (aligned_cached_row rows k r Hal Hr). by eexists.
  - apply lookup_ge_None in Hr. lia.
Qed.

Lemma aligned_verbatim (rows : list WeeklyBar) :
  length rows = 52%nat ->
  (forall j y, rows !! j = Some y -> weekof y ∈ window now j) ->
  verbatim rows (enumerate (week_dates now)) = zip (seqZ 1 52) rows.
Proof.
  intros Hlen Hal. unfold verbatim. apply omap_all.
  - rewrite week_dates_length, length_zip_with, length_seqZ. lia.
  - intros j [i week] Hj. apply enumerate_lookup in Hj as [Hi Hweek].
    cbn [fst snd] in *. subst i.
    apply week_dates_lookup_inv in Hweek as [Hj ->].
    destruct (rows !! j) as [r|] eqn:Hr.
    + rewrite (aligned_cached_row rows j r Hal Hr). cbn.
      symmetry. apply lookup_zip_with_Some. eexists _, _.
      split; [reflexivity|]. split; [|exact Hr]. apply lookup_seqZ. lia.
    + apply lookup_ge_None in Hr. lia.
Qed.

(** Rows dated like those of a returned frame have their window each. *)
Lemma dated_like_aligned (F : DataFrame WeeklyBar) (rows : list WeeklyBar) :
  map fst F = seqZ 1 52 -> Forall (row_in_week now) F ->
  map weekof rows = map (fun lr => weekof (snd lr)) F ->
  length rows = 52%nat /\
  forall j y, rows !! j = Some y -> weekof y ∈ window now j.
Proof.
  intros Hl Hf Hd. split.
  - apply (f_equal length) in Hd. rewrite !length_map in Hd.
    by rewrite Hd, (frame_length F Hl).
  - intros j y Hj.
    assert (Hw : map weekof rows !! j = Some (weekof y))
      by (by rewrite map_fmap, list_lookup_fmap, Hj).
    rewrite Hd, map_fmap, list_lookup_fmap in Hw.
    destruct (F !! j) as [lr|] eqn:HF; [|done]. injection Hw as <-.
    by destruct (frame_row F j lr Hl Hf HF) as (_ & _ & ?).
Qed.

Lemma frame_of_its_rows (F : DataFrame WeeklyBar) :
  map fst F = seqZ 1 52 -> zip (seqZ 1 52) (map snd F) = F.
Proof. intros <-. rewrite !map_fmap. apply zip_fst_snd. Qed.

End Reload.

(** X8.  Whether [get_historical_data] returns or raises, every row that
    it has written to the global [historical_data] is dated inside the
    window of its label; in the frames that it returns, the row at position
    [k] (from 0) has the label [k + 1] and a [weekof] among the five days
    of the [k]-th window, and there are 52 rows.  A call that raises
    because the cache file cannot be read has written nothing: it leaves
    the global, and the whole state, as it was. *)
Theorem rows_dated_in_their_windows (reader : Reader) (now : date)
    (symbols : option (gset string)) (s : state) :
  match get_historical_data reader now symbols s with
  | (Ok h, s') =>
      frames_in_weeks now (historical_data s') /\
      forall t df, h !! t = Some df ->
        length df = 52%nat /\
        forall k lr, df !! k = Some lr ->
          fst lr = Z.of_nat k + 1 /\ weekof (snd lr) ∈ window now k
  | (Raise _, s') =>
      match cache s with
      | Readable _ => frames_in_weeks now (historical_data s')
      | Unreadable _ => s' = s
      end
  end.
Proof.
  destruct (readable_or_not s) as [Hread|[e0 He0]];
    [|by rewrite (load_unreadable reader now symbols s e0 He0), He0].
  pose proof (load_exact reader now symbols s Hread) as H.
  pose proof (load_run reader now symbols s Hread) as H'.
  unfold run_spec in H, H'.
  destruct (get_historical_data reader now symbols s) as [[h|e] s'].
  - destruct H as [-> Hf]. destruct H' as (_ & Hl & _).
    split; [exact Hf|]. intros t df Hdf.
    split; [by eapply frame_length, Hl|].
    intros k lr Hk.
    by destruct (frame_row now df k lr (Hl t df Hdf) (Hf t df Hdf) Hk)
      as (_ & ? & ?).
  - destruct H as (h & calls & -> & _ & Hf & _).
    destruct Hread as [c Hc]. by rewrite Hc.
Qed.

(** A call that returned has read the cache file. *)
Lemma load_returned_readable (reader : Reader) (now : date)
    (symbols : option (gset string)) (s s1 : state)
    (h : gmap string (DataFrame WeeklyBar)) :
  get_historical_data reader now symbols s = (Ok h, s1) -> readable s.
Proof.
  intros Hrun. destruct (readable_or_not s) as [Hread|[e He]]; [exact Hread|].
  by rewrite (load_unreadable reader now symbols s e He) in Hrun.
Qed.

(** X9.  After a call of [get_historical_data] that returned, a call for
    the same symbols on the same day, with a cache file that can be read
    and holds for each of them rows dated like the rows returned, sends no
    request whatever the reader would answer, and returns the rows of the
    cache file under the labels 1 to 52.  With the cache file exactly as
    the first call left it, the second call returns the same frames and
    changes no global. *)
Theorem reload_is_served_by_cache (reader reader' : Reader) (now : date)
    (symbols : option (gset string)) (s s1 s2 : state)
    (h : gmap string (DataFrame WeeklyBar)) :
  get_historical_data reader now symbols s = (Ok h, s1) ->
  tickers s2 = tickers s1 ->
  readable s2 ->
  (forall t df, h !! t = Some df ->
     exists rows, cache_file s2 !! t = Some rows /\
                  map weekof rows = map (fun lr => weekof (snd lr)) df) ->
  exists h2 s3,
    get_historical_data reader' now symbols s2 = (Ok h2, s3) /\
    fetch_log s3 = fetch_log s2 /\
    dom h2 = dom h /\
    (forall t rows, t ∈ dom h -> cache_file s2 !! t = Some rows ->
                    h2 !! t = Some (zip (seqZ 1 52) rows)) /\
    (s2 = s1 -> h2 = h /\ s3 = s1).
Proof.
  intros Hrun Htick Hread2 Hdated.
  pose proof (load_returned_readable _ _ _ _ _ _ Hrun) as Hread.
  pose proof (load_exact reader now symbols s Hread) as H.
  pose proof (load_run reader now symbols s Hread) as H'.
  unfold run_spec in H, H'. rewrite Hrun in H, H'.
  destruct H as [Hs1 Hf]. destruct H' as (Hdom & Hl & _).
  assert (Hreq : requested symbols s2 = dom h).
  { rewrite Hdom. destruct symbols; [done|].
    cbn [requested]. rewrite Htick. by subst s1. }
  assert (Hserved : forall t rows, t ∈ dom h -> cache_file s2 !! t = Some rows ->
            length rows = 52%nat /\
            forall j y, rows !! j = Some y -> weekof y ∈ window now j).
  { intros t rows Ht Hrows. apply elem_of_dom in Ht as [df Hdf].
    destruct (Hdated t df Hdf) as (rows' & Hrows' & Hd).
    rewrite Hrows in Hrows'. injection Hrows' as <-.
    apply (dated_like_aligned now df); [by eapply Hl|by eapply Hf|exact Hd]. }
  assert (Hnone : forall t, t ∈ requested symbols s2 ->
                            ~ needs_fetch now (cache_file s2) t).
  { intros t Ht. rewrite Hreq in Ht. pose proof Ht as Ht'.
    apply elem_of_dom in Ht' as [df Hdf].
    destruct (Hdated t df Hdf) as (rows & Hrows & _).
    destruct (Hserved t rows Ht Hrows) as [Hlen Hal].
    unfold needs_fetch. rewrite Hrows. intros Hn.
    by apply Hn, aligned_gapless. }
  pose proof (load_run reader' now symbols s2 Hread2) as H2.
  unfold run_spec in H2.
  destruct (get_historical_data reader' now symbols s2) as [[h2|e] s3].
  - destruct H2 as (Hdom2 & _ & Hv & calls2 & -> & Hok2).
    assert (Hcalls : calls2 = []).
    { destruct calls2 as [|c calls2]; [reflexivity|]. exfalso.
      apply Forall_cons in Hok2 as [[[t Ht] Hm] _].
      destruct (Hm t Ht) as [Hin Hneed]. by apply (Hnone t). }
    subst calls2.
    assert (Hrows : forall t rows, t ∈ dom h ->
              cache_file s2 !! t = Some rows ->
              h2 !! t = Some (zip (seqZ 1 52) rows)).
    { intros t rows Ht Hrows.
      destruct (Hserved t rows Ht Hrows) as [Hlen Hal].
      rewrite (Hv t rows); [|by rewrite Hreq|exact Hrows
                            |by apply aligned_gapless].
      f_equal. by apply aligned_verbatim. }
    exists h2, (set_cache_file (map snd <$> h2) (upd h2 [] s2)).
    split; [reflexivity|]. split.
    { cbn [fetch_log set_cache_file upd]. apply app_nil_r. }
    split; [by rewrite Hdom2|]. split; [exact Hrows|].
    intros ->.
    assert (Hh : h2 = h).
    { apply map_eq. intros t. destruct (h !! t) as [df|] eqn:Hdf.
      - rewrite (Hrows t (map snd df)).
        + f_equal. apply frame_of_its_rows. by eapply Hl.
        + apply elem_of_dom. by eexists.
        + rewrite Hs1. unfold cache_file. cbn [cache set_cache_file].
          by rewrite lookup_fmap, Hdf.
      - apply not_elem_of_dom. rewrite Hdom2, Hreq.
        by apply not_elem_of_dom. }
    subst h2. split; [reflexivity|]. rewrite Hs1.
    unfold set_cache_file, upd.
    cbn [tickers historical_data portfolio cache fetch_log].
    by rewrite app_nil_r.
  - destruct H2 as (_ & (t & Ht & Hneed) & _). by destruct (Hnone t Ht).
Qed.

(** The cache file that a call leaves holds rows dated like the rows it
    returned. *)
Lemma load_leaves_dated_rows (reader : Reader) (now : date)
    (symbols : option (gset string)) (s s1 : state)
    (h : gmap string (DataFrame WeeklyBar)) :
  get_historical_data reader now symbols s = (Ok h, s1) ->
  forall t df, h !! t = Some df ->
    exists rows, cache_file s1 !! t = Some rows /\
                 map weekof rows = map (fun lr => weekof (snd lr)) df.
Proof.
  intros Hrun t df Hdf.
  pose proof (load_exact reader now symbols s
                (load_returned_readable _ _ _ _ _ _ Hrun)) as H.
  unfold run_spec in H. rewrite Hrun in H. destruct H as [-> _].
  exists (map snd df). unfold cache_file. cbn [cache set_cache_file].
  rewrite lookup_fmap, Hdf. split; [reflexivity|]. by rewrite map_map.
Qed.

(** And it can be read. *)
Lemma load_leaves_readable (reader : Reader) (now : date)
    (symbols : option (gset string)) (s s1 : state)
    (h : gmap string (DataFrame WeeklyBar)) :
  get_historical_data reader now symbols s = (Ok h, s1) -> readable s1.
Proof.
  intros Hrun.
  pose proof (load_exact reader now symbols s
                (load_returned_readable _ _ _ _ _ _ Hrun)) as H.
  unfold run_spec in H. rewrite Hrun in H. destruct H as [-> _].
  by eexists.
Qed.

Lemma reload_is_served_by_cache_witness :
  exists h s1,
    get_historical_data empty_reader example_today (Some {[ "ABC" ]})
      cached_state = (Ok h, s1) /\
    get_historical_data (market_reader example_market) example_today
      (Some {[ "ABC" ]}) s1
    = (Ok h, s1).
Proof.
  destruct (get_historical_data empty_reader example_today
              (Some {[ "ABC" ]}) cached_state) as [[h|e] s1] eqn:Hrun.
  - exists h, s1. split; [reflexivity|].
    destruct (reload_is_served_by_cache
                empty_reader (market_reader example_market) example_today
                (Some {[ "ABC" ]}) cached_state s1 s1 h Hrun eq_refl
                (load_leaves_readable _ _ _ _ _ _ Hrun)
                (load_leaves_dated_rows _ _ _ _ _ _ Hrun))
      as (h2 & s3 & Hrun2 & _ & _ & _ & Hsame).
    destruct (Hsame eq_refl) as [-> ->]. exact Hrun2.
  - exfalso. vm_compute in Hrun. discriminate Hrun.
Defined.

(** ** Scores and the unit of the prices *)

Section PriceUnit.

Variable c : R.
Hypothesis c_pos : (0 < c)%R.












End PriceUnit.



(** ** One symbol pulled in a batch and pulled week by week *)

Section LoneSymbol.

Variable reader : Reader.
Variable now : date.
Variable t : string.

Lemma for_each_alike {A} (l : list A) (body1 body2 : A -> M unit)
    (R : state -> state -> Prop) (s1 s2 : state) :
  R s1 s2 ->
  (forall k x s1 s2, l !! k = Some x -> R s1 s2 ->
                     same_outcome R (body1 x s1) (body2 x s2)) ->
  same_outcome R (for_each l body1 s1) (for_each l body2 s2).
Proof.
  revert s1 s2. induction l as [|x l IH]; intros s1 s2 HR Hstep; [exact HR|].
  cbn [for_each]. unfold bind.
  pose proof (Hstep 0%nat x s1 s2 eq_refl HR) as H0.
  destruct (body1 x s1) as [[u1|e1] s1'], (body2 x s2) as [[u2|e2] s2'];
    try done.
  apply IH; [exact H0|]. intros k y. apply (Hstep (S k) y).
Qed.

(** The batched loop for the symbol alone and the loop of the cached path
    write the same rows. *)
Lemma lone_loops_alike (batch : MultiFrame) (df : list WeeklyBar)
    (s1 s2 : state) :
  (forall k, (k < 52)%nat ->
     exists single,
       read_one reader t (week_first (window now k))
                (week_last (window now k)) = Ok single /\
       present_days (m_index batch) (window now k)
       = present_days (s_index single) (window now k) /\
       forall day, day ∈ present_days (s_index single) (window now k) ->
                   m_cell batch day t = s_cell single day) ->
  Forall (fun week => cached_row df week = None) (week_dates now) ->
  historical_data s1 = historical_data s2 ->
  same_outcome (fun s1 s2 => historical_data s1 = historical_data s2)
    (for_each (enumerate (week_dates now)) (fun iw =>
       let week_series := week_series_of_batch batch (snd iw) in
       for_each [t] (fun ticker =>
         row <- lift (row_of_batch (snd iw) week_series ticker) ;;
         set_row ticker (fst iw + 1) row)) s1)
    (for_each (enumerate (week_dates now)) (week_from_cached reader t df) s2).
Proof.
  intros Hagree Hgaps HR. apply for_each_alike; [exact HR|].
  clear s1 s2 HR. intros k [i week] s1 s2 Hk HR.
  apply enumerate_lookup in Hk as [Hi Hweek]. cbn [fst snd] in *. subst i.
  assert (Hgap : cached_row df week = None).
  { rewrite Forall_lookup in Hgaps. by apply (Hgaps k). }
  apply week_dates_lookup_inv in Hweek as [Hk ->].
  destruct (Hagree k Hk) as (single & Hread & Hdays & Hcells).
  unfold week_from_cached. cbn [fst snd]. unfold cached_row in Hgap.
  destruct (List.filter _ df) as [|r rest]; [|discriminate].
  cbn [for_each]. unfold DataReader_one, bind, modify, lift, ret.
  rewrite Hread.
  rewrite (batch_row_is_single_row _ batch single t Hdays Hcells).
  destruct (row_of_single (window now k)
              (week_series_of_single single (window now k))) as [row|e];
    [|reflexivity].
  unfold set_row, bind, gets, modify, raise.
  cbn [historical_data log_call]. rewrite HR.
  by destruct (historical_data s2 !! t).
Qed.

(** The call for the symbol alone when the cache does not have it. *)
Lemma lone_missing_run (s : state) :
  readable s ->
  cache_file s !! t = None ->
  outcome (get_historical_data reader now (Some {[ t ]}) s)
  = match pull_missing reader now [t] (start_date now) (end_date now)
            (upd {[ t := [] ]} [] s) with
    | (Ok _, s') => Ok (historical_data s')
    | (Raise e, _) => Raise e
    end.
Proof.
  intros Hread Hc. pose proof (readable_cache s Hread) as Hcache.
  assert (Hmt : elements (({[ t ]} : gset string) ∖ dom (cache_file s)) = [t]).
  { apply not_elem_of_dom in Hc.
    rewrite difference_disjoint_L by (by apply disjoint_singleton_l).
    apply elements_singleton. }
  pose proof (pull_missing_run reader now [t] (start_date now) (end_date now)
                (upd {[ t := [] ]} [] s)) as Hrun.
  unfold run_spec in Hrun.
  unfold outcome, get_historical_data.
  unfold bind at 1, ret at 1. unfold bind at 1, read_cache.
  rewrite Hcache. unfold bind at 1, modify at 1. rewrite Hmt.
  rewrite set_historical_data_upd, gset_to_gmap_singleton.
  unfold bind at 1. unfold start_date, end_date in *.
  destruct (pull_missing reader now [t] _ _ _) as [[u|e] sA];
    [|reflexivity].
  destruct Hrun as (hA & calls & -> & _ & HinA & HoutA).
  { apply NoDup_singleton. }
  { intros t' ->%list_elem_of_singleton. cbn [historical_data upd].
    apply lookup_singleton_eq. }
  assert (Hef : empty_frames hA = []).
  { apply elem_of_nil_inv. intros t' Ht'.
    apply elem_of_empty_frames in Ht'.
    destruct (decide (t' = t)) as [->|Hne].
    - destruct (HinA t) as (df & Hdf & Hl); [apply list_elem_of_here|].
      rewrite Ht' in Hdf. injection Hdf as <-. discriminate.
    - rewrite HoutA in Ht' by (by intros ?%list_elem_of_singleton).
      cbn [historical_data upd] in Ht'.
      by rewrite lookup_singleton_ne in Ht'. }
  unfold bind, gets, modify. cbn [historical_data upd].
  rewrite upd_upd. cbn [historical_data upd]. by rewrite Hef.
Qed.

(** The call for the symbol alone when the cache has it. *)
Lemma lone_cached_run (df : list WeeklyBar) (s : state) :
  cache_file s !! t = Some df ->
  outcome (get_historical_data reader now (Some {[ t ]}) s)
  = match for_each (enumerate (week_dates now))
                   (week_from_cached reader t df)
                   (upd {[ t := [] ]} [] s) with
    | (Ok _, s') => Ok (historical_data s')
    | (Raise e, _) => Raise e
    end.
Proof.
  intros Hc.
  pose proof (readable_cache s (lookup_cache_readable s t df Hc)) as Hcache.
  assert (Hmt : elements (({[ t ]} : gset string) ∖ dom (cache_file s)) = []).
  { rewrite subseteq_empty_difference_L; [apply elements_empty|].
    apply singleton_subseteq_l, elem_of_dom. by eexists. }
  assert (Hef : empty_frames ({[ t := [] ]} : gmap string (DataFrame WeeklyBar))
                = [t]).
  { unfold empty_frames. rewrite map_filter_singleton_True by done.
    by rewrite dom_singleton_L, elements_singleton. }
  unfold outcome, get_historical_data.
  unfold bind at 1, ret at 1. unfold bind at 1, read_cache.
  rewrite Hcache. unfold bind at 1, modify at 1. rewrite Hmt.
  rewrite set_historical_data_upd, gset_to_gmap_singleton.
  unfold bind at 1. cbn [pull_missing]. unfold ret at 1.
  unfold bind at 1, gets at 1. cbn [historical_data upd]. rewrite Hef.
  cbn [for_each]. unfold from_cache. rewrite Hc.
  unfold bind, ret, gets, modify.
  by destruct (for_each _ _ _) as [[u|e] sB].
Qed.

End LoneSymbol.

(** The reader in front of a market is such a reader, for every symbol. *)
Lemma market_reader_answers_agree
    (market : string -> date -> option DailyBar) (now : date) (t : string) :
  answers_agree (market_reader market) now t.
Proof.
  eexists. split; [reflexivity|]. intros k Hk.
  eexists. split; [reflexivity|]. cbn [m_index s_index m_cell s_cell].
  split; [|done]. unfold present_days. apply filter_ext_in.
  intros day Hday. apply bool_decide_ext.
  apply list_elem_of_In, elem_of_window in Hday.
  rewrite !list_elem_of_In, !filter_In, <- !list_elem_of_In.
  unfold days_between. rewrite !elem_of_seqZ. cbn [existsb].
  rewrite orb_false_r.
  unfold week_first, week_last, window. cbn [List.hd List.last].
  unfold monday, start_date, end_date in *.
  split; intros [? ?]; (split; [lia|done]).
Qed.

(** X11.  For a symbol requested alone, the batched pull (the cache file
    can be read and does not have the symbol) and the week-by-week pull
    (the cache has the symbol, with no bar in any window) return the same
    frames, or raise the same exception, as soon as the answers of the
    reader agree week by week for that symbol. *)
Theorem lone_symbol_batch_as_by_week (reader : Reader) (now : date)
    (t : string) (df : list WeeklyBar) (s s' : state) :
  answers_agree reader now t ->
  readable s ->
  cache_file s !! t = None ->
  cache_file s' !! t = Some df ->
  Forall (fun week => cached_row df week = None) (week_dates now) ->
  outcome (get_historical_data reader now (Some {[ t ]}) s)
  = outcome (get_historical_data reader now (Some {[ t ]}) s').
Proof.
  intros (batch & Hmany & Hweeks) Hread Hnone Hsome Hgaps.
  rewrite (lone_missing_run reader now t s Hread Hnone).
  rewrite (lone_cached_run reader now t df s' Hsome).
  cbn [pull_missing]. unfold bind at 1.
  unfold DataReader_many, bind, modify, lift. rewrite Hmany.
  pose proof (lone_loops_alike reader now t batch df
                (log_call (CallMany [t] (start_date now) (end_date now))
                          (upd {[ t := [] ]} [] s))
                (upd {[ t := [] ]} [] s') Hweeks Hgaps eq_refl) as H.
  unfold same_outcome in H.
  destruct (for_each _ _ (log_call _ _)) as [[u1|e1] s1],
           (for_each _ _ (upd _ _ s')) as [[u2|e2] s2];
    try done; congruence.
Qed.

Lemma lone_symbol_batch_as_by_week_witness :
  readable initial_state /\
  cache_file initial_state !! "BBB" = None /\
  outcome (get_historical_data (market_reader example_market) example_today
             (Some {[ "BBB" ]}) initial_state)
  = outcome (get_historical_data (market_reader example_market) example_today
               (Some {[ "BBB" ]}) stale_state).
Proof.
  split; [by eexists|]. split; [reflexivity|].
  apply (lone_symbol_batch_as_by_week _ _ _
           [mkWeekly 0 (Fin 1) (Fin 1) (Fin 1) (Fin 1) (Fin 1)]).
  - apply market_reader_answers_agree.
  - by eexists.
  - reflexivity.
  - reflexivity.
  - repeat (constructor; [vm_compute; reflexivity|]). constructor.
Defined.

(** ** Missing values among the highs and lows of a week *)

Section MissingValues.

Lemma gtb_NaN_r (a : num) : gtb a NaN = false.
Proof. by destruct a. Qed.

Lemma fold_max_NaN (l : list num) :
  fold_left (fun m y => if gtb y m then y else m) l NaN = NaN.
Proof. induction l as [|a l IH]; [done|]. cbn. by rewrite gtb_NaN_r. Qed.

Lemma fold_min_NaN (l : list num) :
  fold_left (fun m y => if ltb y m then y else m) l NaN = NaN.
Proof. induction l as [|a l IH]; [done|]. exact IH. Qed.

Lemma fold_max_notna (l : list num) (x : num) :
  fold_left (fun m y => if gtb y m then y else m) l x
  = fold_left (fun m y => if gtb y m then y else m) (List.filter notna l) x.
Proof.
  revert x. induction l as [|a l IH]; intros x; [done|].
  cbn [fold_left List.filter]. destruct a as [|neg|a]; cbn; apply IH.
Qed.

Lemma fold_min_notna (l : list num) (x : num) :
  fold_left (fun m y => if ltb y m then y else m) l x
  = fold_left (fun m y => if ltb y m then y else m) (List.filter notna l) x.
Proof.
  revert x. induction l as [|a l IH]; intros x; [done|].
  cbn [fold_left List.filter]. destruct a as [|neg|a]; cbn.
  - unfold ltb. rewrite gtb_NaN_r. apply IH.
  - apply IH.
  - apply IH.
Qed.

Lemma py_max_first (x : num) (l : list num) :
  py_max (x :: l)
  = if isna x then Ok NaN else py_max (List.filter notna (x :: l)).
Proof.
  destruct x as [|neg|x]; cbn [isna py_max List.filter notna negb].
  - by rewrite fold_max_NaN.
  - by rewrite fold_max_notna.
  - by rewrite fold_max_notna.
Qed.

Lemma py_min_first (x : num) (l : list num) :
  py_min (x :: l)
  = if isna x then Ok NaN else py_min (List.filter notna (x :: l)).
Proof.
  destruct x as [|neg|x]; cbn [isna py_min List.filter notna negb].
  - by rewrite fold_min_NaN.
  - by rewrite fold_min_notna.
  - by rewrite fold_min_notna.
Qed.

End MissingValues.

(** X12.  Missing values among the highs and lows of a week, as the cells
    of a symbol without a bar are in the batched answer: when the high of
    the first present day is missing, the weekly high is missing whatever
    the other days have; otherwise the weekly high is the [max] of the
    highs that are not missing.  The same holds for the low and [min]. *)
Theorem weekly_high_low_with_missing_values (week : list date)
    (first : string -> DailyBar) (rest : list (string -> DailyBar))
    (ticker : string) :
  exists bar,
    row_of_batch week (first :: rest) ticker = Ok bar /\
    Ok (high bar)
    = (if isna (d_high (first ticker)) then Ok NaN
       else py_max (List.filter notna
                      (map (fun day => d_high (day ticker)) (first :: rest)))) /\
    Ok (low bar)
    = (if isna (d_low (first ticker)) then Ok NaN
       else py_min (List.filter notna
                      (map (fun day => d_low (day ticker)) (first :: rest)))).
Proof.
  eexists. split; [reflexivity|]. cbn [high low map]. split.
  - rewrite <- py_max_first. reflexivity.
  - rewrite <- py_min_first. reflexivity.
Qed.

(** ** The score as a formula *)

Section Formula.

Local Open Scope R_scope.

Lemma filter_notna_twice (l : list num) :
  List.filter notna (List.filter notna l) = List.filter notna l.
Proof.
  induction l as [|x l IH]; [done|]. cbn [List.filter].
  destruct (notna x) eqn:Hx; [|exact IH].
  cbn [List.filter]. by rewrite Hx, IH.
Qed.

Lemma mean_filter (l : list num) : mean (List.filter notna l) = mean l.
Proof. unfold mean. by rewrite filter_notna_twice. Qed.

Lemma std_filter (l : list num) : std (List.filter notna l) = std l.
Proof. unfold std, var. by rewrite filter_notna_twice. Qed.

Lemma varied_spread (xs : list R) :
  varied xs ->
  (2 <= length xs)%nat /\ exists x, x ∈ xs /\ x <> Rmean xs.
Proof.
  intros (x & y & Hx & Hy & Hne). split.
  - destruct xs as [|a [|b xs]]; [by apply elem_of_nil in Hx| |simpl; lia].
    apply list_elem_of_singleton in Hx, Hy. congruence.
  - destruct (Req_dec_T x (Rmean xs)) as [Heq|Hx'].
    + exists y. split; [exact Hy|congruence].
    + by exists x.
Qed.

Lemma elem_of_drop_le {A} (l : list A) (a b : nat) (x : A) :
  (b <= a)%nat -> x ∈ drop a l -> x ∈ drop b l.
Proof.
  intros Hle Hx. apply list_elem_of_lookup_1 in Hx as [i Hi].
  rewrite lookup_drop in Hi.
  apply (list_elem_of_lookup_2 _ (a - b + i)). rewrite lookup_drop.
  by replace (b + (a - b + i))%nat with (a + i)%nat by lia.
Qed.

Lemma varied_tail (w w' : nat) (changes : list R) :
  (w <= w')%nat -> varied (tail_sample w changes) ->
  varied (tail_sample w' changes).
Proof.
  intros Hle (x & y & Hx & Hy & Hne). exists x, y. unfold tail_sample in *.
  split; [|split; [|exact Hne]];
    (eapply elem_of_drop_le; [|eassumption]); lia.
Qed.

Lemma ratio_of_sample (xs : list R) :
  varied xs ->
  div (mean (map Fin xs)) (std (map Fin xs)) = Fin (Rsharpe xs).
Proof.
  intros Hv. destruct (varied_spread xs Hv) as (Hlen & x & Hx & Hne).
  by apply (ratio_Fin xs x).
Qed.

Lemma Rchange_length (prev : R) (closes : list R) :
  length (Rchange prev closes) = length closes.
Proof.
  revert prev. induction closes as [|x closes IH]; intros prev; [done|].
  cbn [Rchange length]. by rewrite IH.
Qed.

(** The values that [_sharpe_single] averages for a window of [w] weeks. *)
Lemma window_sample (df : DataFrame WeeklyBar) (c : R) (rest : list R)
    (w : nat) :
  map fst df = seqZ 1 (Z.of_nat (length df)) ->
  map (fun r => close (snd r)) df = map Fin (c :: rest) ->
  Forall (fun x => x <> 0) (c :: rest) ->
  List.filter notna (weeks_in_question (change_frame df) (Z.of_nat w))
  = map Fin (tail_sample w (Rchange c rest)).
Proof.
  intros Hl Hc Hnz.
  assert (Hn : length df = S (length rest)).
  { apply (f_equal length) in Hc. by rewrite !length_map in Hc. }
  assert (Hlen : length (change_frame df) = length df).
  { pose proof (change_frame_labels df) as H.
    apply (f_equal length) in H. by rewrite !length_map in H. }
  rewrite weeks_in_question_rows
    by (by rewrite change_frame_labels, Hlen).
  rewrite change_frame_closes, change_frame_changes, Hc, pct_change_Fin
    by exact Hnz.
  assert (Hcount : count (map Fin (c :: rest))
                   = Z.of_nat (S (length rest))).
  { unfold count. by rewrite filter_notna_Fin, length_map. }
  rewrite Hcount. unfold tail_sample. rewrite Rchange_length.
  set (changes := Rchange c rest).
  assert (Hch : length changes = length rest) by apply Rchange_length.
  destruct (decide (length rest <= w)%nat) as [Hw|Hw].
  - replace (Z.max (Z.of_nat (S (length rest)) - Z.of_nat w) 1) with 1%Z
      by lia.
    replace (length rest - (w + 1))%nat with O by lia.
    change (Z.to_nat (1 - 1)) with O. rewrite !drop_0.
    rewrite take_ge by (cbn [length]; rewrite length_map; lia).
    cbn [List.filter notna isna negb]. apply filter_notna_Fin.
  - replace (Z.max (Z.of_nat (S (length rest)) - Z.of_nat w) 1)
      with (Z.of_nat (S (length rest)) - Z.of_nat w)%Z by lia.
    replace (Z.to_nat (Z.of_nat (S (length rest)) - Z.of_nat w - 1))
      with (S (length rest - (w + 1))) by lia.
    cbn [drop]. rewrite take_ge
      by (rewrite length_drop, length_map; lia).
    rewrite map_fmap, <- fmap_drop, <- map_fmap. apply filter_notna_Fin.
Qed.

Lemma sharpe_single_formula (df : DataFrame WeeklyBar) (c : R)
    (rest : list R) (w : nat) :
  map fst df = seqZ 1 (Z.of_nat (length df)) ->
  map (fun r => close (snd r)) df = map Fin (c :: rest) ->
  Forall (fun x => x <> 0) (c :: rest) ->
  varied (tail_sample w (Rchange c rest)) ->
  _sharpe_single (change_frame df) (Z.of_nat w)
  = Fin (Rsharpe (tail_sample w (Rchange c rest))).
Proof.
  intros Hl Hc Hnz Hv. unfold _sharpe_single.
  rewrite <- mean_filter, <- std_filter.
  rewrite (window_sample df c rest w Hl Hc Hnz).
  by apply ratio_of_sample.
Qed.

End Formula.

(** X13.  The score as a formula.  For a weekly frame with the labels 1,
    2, ... whose closes are finite and not zero, let the changes be the
    week-to-week changes [close / previous close - 1] from the second week
    on.  When the last 14 changes are not all equal, the score of
    [sharpe_ratios] is the mean of three ratios, each the mean of a sample
    over its sample standard deviation: the samples are the last 53, 27 and
    14 changes, or all the changes where there are fewer. *)
Theorem score_formula (df : DataFrame WeeklyBar) (c : R) (rest : list R) :
  map fst df = seqZ 1 (Z.of_nat (length df)) ->
  map (fun r => close (snd r)) df = map Fin (c :: rest) ->
  Forall (fun x => x <> 0%R) (c :: rest) ->
  varied (tail_sample 13 (Rchange c rest)) ->
  score_of df
  = Fin ((Rsharpe (tail_sample 52 (Rchange c rest))
          + Rsharpe (tail_sample 26 (Rchange c rest))
          + Rsharpe (tail_sample 13 (Rchange c rest))) / 3)%R.
Proof.
  intros Hl Hc Hnz Hv.
  pose proof (sharpe_single_formula df c rest 52 Hl Hc Hnz
                (varied_tail 13 52 _ ltac:(lia) Hv)) as H52.
  pose proof (sharpe_single_formula df c rest 26 Hl Hc Hnz
                (varied_tail 13 26 _ ltac:(lia) Hv)) as H26.
  pose proof (sharpe_single_formula df c rest 13 Hl Hc Hnz Hv) as H13.
  change (Z.of_nat 52) with 52%Z in H52.
  change (Z.of_nat 26) with 26%Z in H26.
  change (Z.of_nat 13) with 13%Z in H13.
  unfold score_of, average_sharpe. rewrite H52, H26, H13. cbn [add].
  apply div_Fin. lra.
Qed.

Lemma score_formula_witness :
  let changes := Rchange 1 [2; 1; 2]%R in
  score_of (weekly_of_closes [1; 2; 1; 2]%R)
  = Fin ((Rsharpe (tail_sample 52 changes)
          + Rsharpe (tail_sample 26 changes)
          + Rsharpe (tail_sample 13 changes)) / 3)%R.
Proof.
  cbv zeta. apply score_formula.
  - vm_compute. reflexivity.
  - apply weekly_of_closes_column.
  - repeat (constructor; [lra|]). constructor.
  - exists (2 / 1 - 1)%R, (1 / 2 - 1)%R. split; [apply list_elem_of_here|].
    split; [apply list_elem_of_further, list_elem_of_here|lra].
Defined.
